(** * Dirt Dash: a shallow embedding of [FP/game.py]

    The race simulation of the game (vehicle physics, bot controllers,
    obstacle generation and collisions, the race state machine and the
    results) is embedded as pure functions over explicit records.

    Numbers.  Python floats are modelled as exact rationals [Q]; Python
    integers as [Z].  Rounding, infinities and NaN are therefore outside
    the model.  [math.sin] is not a rational function: it is a parameter
    of the development, and every result holds for any choice of it.

    Effects.  The methods of [Game] mutate [self] and the module-level
    [stats] dictionary; they become functions [Game -> Game], with [stats]
    a field of the record.  Readings of [time.perf_counter()] are inputs.
    Canvas drawing and the best-effort file I/O have no effect on the
    simulation and are left out. *)

From Stdlib Require Import QArith Qabs ZArith List String Ascii Bool Lia Lqa.
From Stdlib Require Import Sorting.Sorted Sorting.Permutation DecimalString.
Import ListNotations.
Local Open Scope Q_scope.

(** ** Numbers as Python computes with them *)

Definition Qlt_bool (a b : Q) : bool := negb (Qle_bool b a).

(** [min(a, b)] and [max(a, b)] return their first argument on ties. *)
Definition py_min (a b : Q) : Q := if Qlt_bool b a then b else a.
Definition py_max (a b : Q) : Q := if Qlt_bool a b then b else a.

(** [int(q)]: truncation toward zero. *)
Definition py_int (q : Q) : Z := Z.quot (Qnum q) (Zpos (Qden q)).

Definition clamp (v lo hi : Q) : Q :=
  if Qlt_bool v lo then lo else if Qlt_bool hi v then hi else v.

(** ** Config *)

Definition GROUND_BASE_Y : Q := 470.
Definition GRAVITY : Q := 1500.0.
Definition JUMP_VY : Q := -540.0.
Definition MAX_SPEED : Q := 270.0.
Definition ACCEL : Q := 620.0.
Definition BRAKE : Q := 980.0.
Definition ROLL_DECEL : Q := 720.0.
Definition FRAME_DT : Q := 1 / 60.
Definition TRACK_LENGTH : Q := 3600.0.
Definition BOT_COUNT_DEFAULT : Z := 3.
Definition COUNTDOWN_MS : Q := 3000.
Definition OBST_ROCKS : Z := 12.
Definition OBST_LOGS : Z := 8.
Definition OBST_RAMPS : Z := 8.

(** A stand-in for [math.sin] on which the model can be run: flat ground. *)
Definition sin_zero (_ : Q) : Q := 0.

(** ** Strings *)

Definition lower_ascii (c : ascii) : ascii :=
  let n := nat_of_ascii c in
  if (65 <=? n)%nat && (n <=? 90)%nat then ascii_of_nat (n + 32) else c.

Fixpoint lower (s : string) : string :=
  match s with
  | EmptyString => EmptyString
  | String c s' => String (lower_ascii c) (lower s')
  end.

Definition str_of_Z (z : Z) : string := NilEmpty.string_of_int (Z.to_int z).

(** ** Persisted stats

    The [stats] dictionary; a key read with [stats.get(key, default)] may be
    absent. *)
Record Stats := mkStats {
  total_races : option Z;
  wins : option Z;
  best_time : option Q;
  st_reduced_motion : option bool;
  st_bots : option Z
}.

Definition default_stats : Stats :=
  mkStats (Some 0%Z) (Some 0%Z) None (Some true) (Some BOT_COUNT_DEFAULT).

Definition get {A} (o : option A) (d : A) : A :=
  match o with Some v => v | None => d end.

(** ** Seeded generator

    [seeded_rand seed] is the initial content of the closure's cell; [rnd]
    advances the cell and yields the quotient. *)
Definition seeded_rand (seed : Z) : Z := Z.land seed 0x7fffffff.

Definition rnd (x : Z) : Z * Q :=
  let x' := Z.land (1103515245 * x + 12345) 0x7fffffff in
  (x', inject_Z x' / inject_Z 0x7fffffff).

(** ** Obstacles

    The dictionaries [{"type": ..., "xw": ..., ...}] as a tagged union. *)
Inductive Obstacle :=
| Rock (xw : Q) (r : Z)
| Log (xw : Q) (w h : Z)
| Ramp (xw : Q) (w h : Z).

Definition ob_xw (ob : Obstacle) : Q :=
  match ob with Rock x _ => x | Log x _ _ => x | Ramp x _ _ => x end.

Definition is_ramp (ob : Obstacle) : bool :=
  match ob with Ramp _ _ _ => true | _ => false end.

(** ** [list.sort(key=...)]: a stable sort, ascending by key *)
Section Sorting.
Context {A : Type} (key : A -> Q).

Fixpoint insert_by (x : A) (l : list A) : list A :=
  match l with
  | [] => [x]
  | y :: l' => if Qle_bool (key x) (key y) then x :: y :: l'
               else y :: insert_by x l'
  end.

Fixpoint sort_by (l : list A) : list A :=
  match l with
  | [] => []
  | x :: l' => insert_by x (sort_by l')
  end.

(** The order the sort establishes. *)
Definition le_key (a b : A) : Prop := key a <= key b.
End Sorting.

(** ** Vehicles *)
Record Bike := mkBike {
  is_bot : bool;
  name : string;
  color : string;
  xw : Q;
  y : Q;
  vy : Q;
  speed : Q;
  engine_on : bool;
  finished : bool;
  finish_time : option Q;
  bump_cooldown : Q
}.

Definition set_xw (v : Q) (b : Bike) : Bike :=
  mkBike (is_bot b) (name b) (color b) v (y b) (vy b) (speed b)
         (engine_on b) (finished b) (finish_time b) (bump_cooldown b).
Definition set_y (v : Q) (b : Bike) : Bike :=
  mkBike (is_bot b) (name b) (color b) (xw b) v (vy b) (speed b)
         (engine_on b) (finished b) (finish_time b) (bump_cooldown b).
Definition set_vy (v : Q) (b : Bike) : Bike :=
  mkBike (is_bot b) (name b) (color b) (xw b) (y b) v (speed b)
         (engine_on b) (finished b) (finish_time b) (bump_cooldown b).
Definition set_speed (v : Q) (b : Bike) : Bike :=
  mkBike (is_bot b) (name b) (color b) (xw b) (y b) (vy b) v
         (engine_on b) (finished b) (finish_time b) (bump_cooldown b).
Definition set_engine_on (v : bool) (b : Bike) : Bike :=
  mkBike (is_bot b) (name b) (color b) (xw b) (y b) (vy b) (speed b)
         v (finished b) (finish_time b) (bump_cooldown b).
Definition set_finish (t : Q) (b : Bike) : Bike :=
  mkBike (is_bot b) (name b) (color b) (xw b) (y b) (vy b) (speed b)
         (engine_on b) true (Some t) (bump_cooldown b).
Definition set_bump_cooldown (v : Q) (b : Bike) : Bike :=
  mkBike (is_bot b) (name b) (color b) (xw b) (y b) (vy b) (speed b)
         (engine_on b) (finished b) (finish_time b) v.

(** A bot controller owns the vehicle it drives: [Game.bots] and
    [Game.bot_ai] are filled together by [build_bots] with the same
    objects, so the bots are read off the controllers. *)
Record BotAI := mkBotAI {
  bike : Bike;
  target_speed : Q;
  jump_bias : Q;
  ai_name : string
}.

Inductive State := HOME | GRID | PLAY | PAUSE | END.

Definition State_eqb (a b : State) : bool :=
  match a, b with
  | HOME, HOME | GRID, GRID | PLAY, PLAY | PAUSE, PAUSE | END, END => true
  | _, _ => false
  end.

(** What a button of [home_buttons] calls back. *)
Inductive Callback := DecBots | IncBots | ToggleRm | StartRace | ToHome.

Definition Box : Type := Z * Z * Z * Z.

Record Game := mkGame {
  state : State;
  keys : list string;
  world_x : Q;
  player : Bike;
  bot_ai : list BotAI;
  obstacles : list Obstacle;
  time_elapsed : Q;
  countdown_end : option Q;
  results : list (string * Q);
  bot_count : Z;
  reduced_motion : bool;
  last_time : Q;
  home_buttons : list (Box * Callback);
  pause_btn_box : option Box;
  stats : Stats
}.

Definition bots (g : Game) : list Bike := map bike (bot_ai g).
Definition everyone (g : Game) : list Bike := player g :: bots g.

Definition set_state (v : State) (g : Game) : Game :=
  mkGame v (keys g) (world_x g) (player g) (bot_ai g) (obstacles g)
         (time_elapsed g) (countdown_end g) (results g) (bot_count g)
         (reduced_motion g) (last_time g) (home_buttons g) (pause_btn_box g)
         (stats g).
Definition set_keys (v : list string) (g : Game) : Game :=
  mkGame (state g) v (world_x g) (player g) (bot_ai g) (obstacles g)
         (time_elapsed g) (countdown_end g) (results g) (bot_count g)
         (reduced_motion g) (last_time g) (home_buttons g) (pause_btn_box g)
         (stats g).
Definition set_world_x (v : Q) (g : Game) : Game :=
  mkGame (state g) (keys g) v (player g) (bot_ai g) (obstacles g)
         (time_elapsed g) (countdown_end g) (results g) (bot_count g)
         (reduced_motion g) (last_time g) (home_buttons g) (pause_btn_box g)
         (stats g).
Definition set_player (v : Bike) (g : Game) : Game :=
  mkGame (state g) (keys g) (world_x g) v (bot_ai g) (obstacles g)
         (time_elapsed g) (countdown_end g) (results g) (bot_count g)
         (reduced_motion g) (last_time g) (home_buttons g) (pause_btn_box g)
         (stats g).
Definition set_bot_ai (v : list BotAI) (g : Game) : Game :=
  mkGame (state g) (keys g) (world_x g) (player g) v (obstacles g)
         (time_elapsed g) (countdown_end g) (results g) (bot_count g)
         (reduced_motion g) (last_time g) (home_buttons g) (pause_btn_box g)
         (stats g).
Definition set_obstacles (v : list Obstacle) (g : Game) : Game :=
  mkGame (state g) (keys g) (world_x g) (player g) (bot_ai g) v
         (time_elapsed g) (countdown_end g) (results g) (bot_count g)
         (reduced_motion g) (last_time g) (home_buttons g) (pause_btn_box g)
         (stats g).
Definition set_time_elapsed (v : Q) (g : Game) : Game :=
  mkGame (state g) (keys g) (world_x g) (player g) (bot_ai g) (obstacles g)
         v (countdown_end g) (results g) (bot_count g)
         (reduced_motion g) (last_time g) (home_buttons g) (pause_btn_box g)
         (stats g).
Definition set_countdown_end (v : option Q) (g : Game) : Game :=
  mkGame (state g) (keys g) (world_x g) (player g) (bot_ai g) (obstacles g)
         (time_elapsed g) v (results g) (bot_count g)
         (reduced_motion g) (last_time g) (home_buttons g) (pause_btn_box g)
         (stats g).
Definition set_results (v : list (string * Q)) (g : Game) : Game :=
  mkGame (state g) (keys g) (world_x g) (player g) (bot_ai g) (obstacles g)
         (time_elapsed g) (countdown_end g) v (bot_count g)
         (reduced_motion g) (last_time g) (home_buttons g) (pause_btn_box g)
         (stats g).
Definition set_bot_count (v : Z) (g : Game) : Game :=
  mkGame (state g) (keys g) (world_x g) (player g) (bot_ai g) (obstacles g)
         (time_elapsed g) (countdown_end g) (results g) v
         (reduced_motion g) (last_time g) (home_buttons g) (pause_btn_box g)
         (stats g).
Definition set_reduced_motion (v : bool) (g : Game) : Game :=
  mkGame (state g) (keys g) (world_x g) (player g) (bot_ai g) (obstacles g)
         (time_elapsed g) (countdown_end g) (results g) (bot_count g)
         v (last_time g) (home_buttons g) (pause_btn_box g)
         (stats g).
Definition set_last_time (v : Q) (g : Game) : Game :=
  mkGame (state g) (keys g) (world_x g) (player g) (bot_ai g) (obstacles g)
         (time_elapsed g) (countdown_end g) (results g) (bot_count g)
         (reduced_motion g) v (home_buttons g) (pause_btn_box g)
         (stats g).
Definition set_home_buttons (v : list (Box * Callback)) (g : Game) : Game :=
  mkGame (state g) (keys g) (world_x g) (player g) (bot_ai g) (obstacles g)
         (time_elapsed g) (countdown_end g) (results g) (bot_count g)
         (reduced_motion g) (last_time g) v (pause_btn_box g)
         (stats g).
Definition set_pause_btn_box (v : option Box) (g : Game) : Game :=
  mkGame (state g) (keys g) (world_x g) (player g) (bot_ai g) (obstacles g)
         (time_elapsed g) (countdown_end g) (results g) (bot_count g)
         (reduced_motion g) (last_time g) (home_buttons g) v
         (stats g).
Definition set_stats (v : Stats) (g : Game) : Game :=
  mkGame (state g) (keys g) (world_x g) (player g) (bot_ai g) (obstacles g)
         (time_elapsed g) (countdown_end g) (results g) (bot_count g)
         (reduced_motion g) (last_time g) (home_buttons g) (pause_btn_box g)
         v.

Section Race.

(** [math.sin], left abstract. *)
Variable sin : Q -> Q.

(** ** Utilities *)

Definition ground_y_at (xw : Q) : Q :=
  GROUND_BASE_Y
  + 16.0 * sin ((xw + 200) / 260.0)
  + 12.0 * sin ((xw + 900) / 180.0).

(** ** Entities *)

(** [Bike.__init__] *)
Definition new_bike (color : string) (is_bot : bool) (name : string) : Bike :=
  mkBike is_bot name color 0.0 (ground_y_at 0 - 40) 0.0 0.0
         false false None 0.0.

Definition on_ground (b : Bike) : bool :=
  Qlt_bool (Qabs (y b - (ground_y_at (xw b) - 36))) 0.2.

Definition update_physics (dt : Q) (b : Bike) : Bike :=
  let b := set_vy (vy b + GRAVITY * dt) b in
  let b := set_y (y b + vy b * dt) b in
  let floor := ground_y_at (xw b) - 36 in
  let b := if Qle_bool floor (y b) then set_vy 0.0 (set_y floor b) else b in
  if Qlt_bool 0 (bump_cooldown b)
  then set_bump_cooldown (bump_cooldown b - dt) b
  else b.

Definition jump (v : Q) (b : Bike) : Bike :=
  if on_ground b then set_vy v b else b.

(** The look-ahead loop of [BotAI.step]: the first obstacle strictly
    ahead and closer than [look] ends the scan. *)
Fixpoint look_ahead (look : Q) (obs : list Obstacle) (b : Bike) : Bike :=
  match obs with
  | [] => b
  | ob :: rest =>
      let dx := ob_xw ob - xw b in
      if Qlt_bool 0 dx && Qlt_bool dx look then
        if on_ground b then
          if is_ramp ob then jump (JUMP_VY * 0.95) b
          else jump (JUMP_VY * 0.88) b
        else b
      else look_ahead look rest b
  end.

(** [BotAI.step] *)
Definition bot_step (dt : Q) (obs : list Obstacle) (ai : BotAI) : BotAI :=
  let b := bike ai in
  if finished b then ai
  else
    let b :=
      if Qlt_bool (speed b) (target_speed ai)
      then set_speed (py_min (speed b + (ACCEL * 0.8) * dt) (target_speed ai)) b
      else set_speed (py_max (speed b - (ROLL_DECEL * 0.4) * dt)
                             (target_speed ai * 0.9)) b in
    let look := 140 + jump_bias ai in
    let b := look_ahead look obs b in
    let b := set_xw (xw b + speed b * dt) b in
    let b := update_physics dt b in
    mkBotAI b (target_speed ai) (jump_bias ai) (ai_name ai).

(** ** Track and obstacles *)

Definition mk_rock (n : Z) (r : Q) : Obstacle :=
  Rock (240 + (TRACK_LENGTH - 480) * inject_Z (n + 1) / inject_Z (OBST_ROCKS + 1)
        + inject_Z (py_int (r * 53)) - 26)
       (10 + (n * 31) mod 7).

Definition mk_log (n : Z) (r : Q) : Obstacle :=
  Log (400 + (TRACK_LENGTH - 800) * inject_Z (n + 1) / inject_Z (OBST_LOGS + 1)
       + inject_Z (py_int (r * 73)) - 36)
      (56 + (n * 13) mod 16) 12.

Definition mk_ramp (n : Z) (r : Q) : Obstacle :=
  Ramp (350 + (TRACK_LENGTH - 700) * inject_Z (n + 1) / inject_Z (OBST_RAMPS + 1)
        + inject_Z (py_int (r * 61)) - 30)
       84 40.

(** [range(n)] *)
Definition range (n : Z) : list Z := map Z.of_nat (seq 0 (Z.to_nat n)).

(** One [for n in range(...)] loop of [spawn_obstacles]: each turn draws
    once from the generator and appends one obstacle. *)
Fixpoint spawn_loop (mk : Z -> Q -> Obstacle) (ns : list Z)
         (acc : list Obstacle * Z) : list Obstacle * Z :=
  match ns with
  | [] => acc
  | n :: ns' =>
      let (x', r) := rnd (snd acc) in
      spawn_loop mk ns' (fst acc ++ [mk n r], x')
  end.

(** The body of [spawn_obstacles], with the seed it passes to
    [seeded_rand] as an argument. *)
Definition gen_obstacles (seed : Z) : list Obstacle :=
  let acc := ([], seeded_rand seed) in
  let acc := spawn_loop mk_rock (range OBST_ROCKS) acc in
  let acc := spawn_loop mk_log (range OBST_LOGS) acc in
  let acc := spawn_loop mk_ramp (range OBST_RAMPS) acc in
  sort_by ob_xw (fst acc).

Definition spawn_obstacles (g : Game) : Game :=
  set_obstacles (gen_obstacles 1337) g.

Definition bot_colors : list string :=
  ["#93C5FD"; "#86EFAC"; "#FCA5A5"; "#F0ABFC"; "#FDE68A"]%string.

Definition mk_bot (i : Z) : BotAI :=
  let nm := ("Bot " ++ str_of_Z (i + 1))%string in
  let b := new_bike (nth (Z.to_nat (i mod 5)) bot_colors ""%string) true nm in
  mkBotAI b (220.0 + 12 * inject_Z i) (10 * inject_Z i) nm.

Definition build_bots (g : Game) : Game :=
  set_bot_ai (map mk_bot (range (bot_count g))) g.

(** ** Collisions *)

Definition in_window (b : Bike) (ob : Obstacle) : bool :=
  let dx := ob_xw ob - xw b in
  Qle_bool (-30) dx && Qle_bool dx 30.

(** One turn of the loop of [handle_obstacles]. *)
Definition obstacle_step (b : Bike) (ob : Obstacle) : Bike :=
  if in_window b ob then
    let gy := ground_y_at (ob_xw ob) in
    match ob with
    | Rock _ r =>
        let top := gy - inject_Z r in
        if Qle_bool (top - 10) (y b) && Qle_bool (bump_cooldown b) 0 then
          let b := set_speed (py_max (speed b * 0.6) (speed b - 80)) b in
          let b := set_vy (-120) b in
          set_bump_cooldown 0.6 b
        else b
    | Log _ _ h =>
        let top := gy - inject_Z h in
        if Qle_bool (top - 10) (y b) && Qle_bool (bump_cooldown b) 0 then
          let b := set_speed (py_max (speed b * 0.7) (speed b - 90)) b in
          let b := set_vy (-150) b in
          set_bump_cooldown 0.6 b
        else b
    | Ramp x w _ =>
        let mouth_left := x - inject_Z w / 2 in
        let mouth_right := x + inject_Z w / 2 in
        if Qle_bool (mouth_left - 10) (xw b)
           && Qle_bool (xw b) (mouth_right + 10)
           && on_ground b
        then set_vy (JUMP_VY * 0.9) b
        else b
    end
  else b.

Definition handle_obstacles (obs : list Obstacle) (b : Bike) : Bike :=
  fold_left obstacle_step obs b.

(** ** Results *)

Definition score (now : Q) (b : Bike) : string * Q :=
  (name b, match finish_time b with Some t => t | None => now end).

Definition is_you (nt : string * Q) : bool := String.eqb (fst nt) "You".

Definition end_race (g : Game) : Game :=
  let everyone := sort_by snd (map (score (time_elapsed g)) (everyone g)) in
  let g := set_results everyone g in
  let st := stats g in
  let st := mkStats (Some (get (total_races st) 0 + 1)%Z) (wins st)
                    (best_time st) (st_reduced_motion st) (st_bots st) in
  let st :=
    match everyone with
    | first :: _ =>
        if is_you first
        then mkStats (total_races st) (Some (get (wins st) 0 + 1)%Z)
                     (best_time st) (st_reduced_motion st) (st_bots st)
        else st
    | [] => st
    end in
  let st :=
    match find is_you everyone with
    | Some (_, pt) =>
        match best_time st with
        | None => mkStats (total_races st) (wins st) (Some pt)
                          (st_reduced_motion st) (st_bots st)
        | Some bt =>
            if Qlt_bool pt bt
            then mkStats (total_races st) (wins st) (Some pt)
                         (st_reduced_motion st) (st_bots st)
            else st
        end
    | None => st
    end in
  let st := mkStats (total_races st) (wins st) (best_time st)
                    (Some (reduced_motion g)) (Some (bot_count g)) in
  set_state END (set_stats st g).

(** ** Update *)

Definition has_key (k : string) (g : Game) : bool :=
  existsb (String.eqb k) (keys g).

(** "Engine and input" of [update_play]. *)
Definition control (dt : Q) (g : Game) (p : Bike) : Bike :=
  if negb (engine_on p) then
    set_speed (py_max 0.0 (speed p - ROLL_DECEL * dt)) p
  else if has_key "Right" g then
    set_speed (clamp (speed p + ACCEL * dt) 0 MAX_SPEED) p
  else if has_key "Left" g then
    set_speed (clamp (speed p - BRAKE * dt) 0 MAX_SPEED) p
  else
    set_speed (clamp (speed p - ROLL_DECEL * dt) 0 MAX_SPEED) p.

(** "Finish check", for one entity. *)
Definition finish_check (t : Q) (b : Bike) : Bike :=
  if negb (finished b) && Qle_bool TRACK_LENGTH (xw b)
  then set_finish t b else b.

Definition finish_check_ai (t : Q) (ai : BotAI) : BotAI :=
  mkBotAI (finish_check t (bike ai)) (target_speed ai) (jump_bias ai)
          (ai_name ai).

Definition done (b : Bike) : bool :=
  finished b || Qle_bool TRACK_LENGTH (xw b).

(** "Advance world": the player once moved and integrated. *)
Definition advance (dt : Q) (g : Game) : Bike :=
  let p := control dt g (player g) in
  let p := set_xw (xw p + speed p * dt) p in
  update_physics dt p.

(** [update_play] up to and including the finish check. *)
Definition update_play_checked (dt : Q) (g : Game) : Game :=
  let p := advance dt g in
  let ais := map (bot_step dt (obstacles g)) (bot_ai g) in
  let p := handle_obstacles (obstacles g) p in
  let p := finish_check (time_elapsed g) p in
  let ais := map (finish_check_ai (time_elapsed g)) ais in
  set_bot_ai ais (set_player p g).

Definition update_play (dt : Q) (g : Game) : Game :=
  let g := update_play_checked dt g in
  let g := if forallb done (everyone g) then end_race g else g in
  set_time_elapsed (time_elapsed g + dt) g.

(** ** Flow control *)

Definition pause_toggle (g : Game) : Game :=
  match state g with
  | PLAY => set_state PAUSE g
  | PAUSE => set_state PLAY g
  | _ => g
  end.

(** [now] is the reading of [time.perf_counter()]. *)
Definition start_race (now : Q) (g : Game) : Game :=
  let g := set_state GRID g in
  let g := set_results [] g in
  let g := set_time_elapsed 0.0 g in
  let g := set_world_x 0.0 g in
  let g := set_player (new_bike "#FFD166" false "You") g in
  let g := set_player (set_engine_on false (player g)) g in
  let g := spawn_obstacles g in
  let g := build_bots g in
  set_countdown_end (Some (now + COUNTDOWN_MS / 1000.0)) g.

(** ** Draw: the assignments the drawing methods make *)

Definition draw_ground (g : Game) : Game :=
  set_world_x (world_x g
               + (xw (player g) - world_x g)
                 * (if reduced_motion g then 0.12 else 0.2)) g.

(** Without a deadline the subtraction raises before any assignment. *)
Definition draw_grid_overlay (now : Q) (g : Game) : Game :=
  match countdown_end g with
  | None => g
  | Some deadline =>
      let ms_left := py_int (py_max 0 ((deadline - now) * 1000)) in
      if (ms_left =? 0)%Z && State_eqb (state g) GRID then
        let g := set_state PLAY g in
        set_player (set_engine_on true (player g)) g
      else g
  end.

Definition draw_pause_overlay (g : Game) : Game :=
  set_pause_btn_box (Some (450, 290, 650, 324)%Z) g.

Definition draw_end_overlay (g : Game) : Game :=
  let yy := (190 + 24 * Z.of_nat (List.length (results g)))%Z in
  set_home_buttons
    [ ((280, yy + 10, 440, yy + 46)%Z, StartRace);
      ((460, yy + 10, 580, yy + 46)%Z, ToHome) ] g.

Definition draw (now : Q) (g : Game) : Game :=
  let g := draw_ground g in
  match state g with
  | HOME => g
  | GRID => draw_grid_overlay now g
  | PAUSE => draw_pause_overlay g
  | END => draw_end_overlay g
  | PLAY => g
  end.

Definition draw_home (now : Q) (g : Game) : Game :=
  let g := draw_ground g in
  let g := set_home_buttons
             [ ((460, 230, 488, 258)%Z, DecBots);
               ((494, 230, 522, 258)%Z, IncBots);
               ((350, 270, 560, 304)%Z, ToggleRm);
               ((350, 320, 510, 358)%Z, StartRace) ] g in
  let g := set_world_x 120.0 g in
  draw now g.

Definition to_home (now : Q) (g : Game) : Game :=
  let st := stats g in
  let st := mkStats (total_races st) (wins st) (best_time st)
                    (Some (reduced_motion g)) (Some (bot_count g)) in
  let g := set_stats st g in
  let g := set_state HOME g in
  draw_home now g.

(** ** Home actions *)

Definition dec_bots (now : Q) (g : Game) : Game :=
  draw_home now (set_bot_count (Z.max 0 (bot_count g - 1)) g).

Definition inc_bots (now : Q) (g : Game) : Game :=
  draw_home now (set_bot_count (Z.min 5 (bot_count g + 1)) g).

Definition toggle_rm (now : Q) (g : Game) : Game :=
  draw_home now (set_reduced_motion (negb (reduced_motion g)) g).

Definition call (cb : Callback) (now : Q) (g : Game) : Game :=
  match cb with
  | DecBots => dec_bots now g
  | IncBots => inc_bots now g
  | ToggleRm => toggle_rm now g
  | StartRace => start_race now g
  | ToHome => to_home now g
  end.

(** ** Event binding *)

Definition inside (bx : Box) (ex ey : Z) : bool :=
  let '(x0, y0, x1, y1) := bx in
  ((x0 <=? ex) && (ex <=? x1) && (y0 <=? ey) && (ey <=? y1))%Z.

Definition on_keydown (keysym : string) (now : Q) (g : Game) : Game :=
  let g := if has_key keysym g then g else set_keys (keysym :: keys g) g in
  if String.eqb keysym "space" then
    match state g with
    | PLAY => set_player (jump JUMP_VY (player g)) g
    | _ => g
    end
  else if String.eqb (lower keysym) "s" then
    match state g with
    | GRID | PLAY | PAUSE =>
        set_player (set_engine_on (negb (engine_on (player g))) (player g)) g
    | _ => g
    end
  else if String.eqb (lower keysym) "p" then pause_toggle g
  else if String.eqb (lower keysym) "r" then
    match state g with
    | PLAY | PAUSE | END => start_race now g
    | _ => g
    end
  else if String.eqb keysym "Return" then
    match state g with
    | HOME | END => start_race now g
    | _ => g
    end
  else g.

Definition on_keyup (keysym : string) (g : Game) : Game :=
  set_keys (filter (fun k => negb (String.eqb keysym k)) (keys g)) g.

Definition on_click (ex ey : Z) (now : Q) (g : Game) : Game :=
  match state g with
  | HOME =>
      match find (fun bc => inside (fst bc) ex ey) (home_buttons g) with
      | Some (_, cb) => call cb now g
      | None => g
      end
  | PAUSE =>
      match pause_btn_box g with
      | Some bx => if inside bx ex ey then pause_toggle g else g
      | None => g
      end
  | _ => g
  end.

(** ** Loop *)

(** The time step [loop] hands to [update_play]. *)
Definition frame_dt (now : Q) (g : Game) : Q :=
  py_min (now - last_time g) (1 / 30).

(** One turn of [loop]: [now] is its own clock reading, [tdraw] the later
    one of the countdown overlay. *)
Definition loop (now tdraw : Q) (g : Game) : Game :=
  let dt := frame_dt now g in
  let g := set_last_time now g in
  let g := match state g with
           | PLAY => update_play dt g
           | _ => g
           end in
  draw tdraw g.

(** ** The game as a transition system *)

Inductive Event :=
| KeyPress (keysym : string) (now : Q)
| KeyRelease (keysym : string)
| Button1 (ex ey : Z) (now : Q)
| Frame (now tdraw : Q).

Definition step (g : Game) (e : Event) : Game :=
  match e with
  | KeyPress k now => on_keydown k now g
  | KeyRelease k => on_keyup k g
  | Button1 ex ey now => on_click ex ey now g
  | Frame now tdraw => loop now tdraw g
  end.

Definition run (g : Game) (es : list Event) : Game := fold_left step es g.

(** States of a race: whatever follows a [start_race]. *)
Inductive racing : Game -> Prop :=
| racing_start now g : racing (start_race now g)
| racing_step g e : racing g -> racing (step g e).

(** ** The place shown by [draw_hud] *)

(** The entities with their positions, the one ahead first. *)
Definition hud_rows (g : Game) : list (string * Q) :=
  sort_by (fun t => - snd t)
          (("You"%string, xw (player g))
             :: map (fun b => (name b, xw b)) (bots g)).

(** [next((i+1 for i, (n, _) in enumerate(rows) if n == "You"), ...)],
    counting from [i]. *)
Fixpoint first_you (i : nat) (rows : list (string * Q)) : option nat :=
  match rows with
  | [] => None
  | r :: rest => if is_you r then Some (i + 1)%nat else first_you (S i) rest
  end.

Definition hud_pos (g : Game) : nat := get (first_you 0 (hud_rows g)) 1%nat.

(** ** Observations on a run *)

(** The guard under which a turn of [handle_obstacles] applies the rock
    or log penalty. *)
Definition penalised (b : Bike) (ob : Obstacle) : bool :=
  in_window b ob &&
  match ob with
  | Rock x r =>
      Qle_bool (ground_y_at x - inject_Z r - 10) (y b)
      && Qle_bool (bump_cooldown b) 0
  | Log x _ h =>
      Qle_bool (ground_y_at x - inject_Z h - 10) (y b)
      && Qle_bool (bump_cooldown b) 0
  | Ramp _ _ _ => false
  end.

(** How many penalties one call of [handle_obstacles] applies. *)
Fixpoint penalty_count (obs : list Obstacle) (b : Bike) : nat :=
  match obs with
  | [] => 0
  | ob :: rest =>
      ((if penalised b ob then 1 else 0)
       + penalty_count rest (obstacle_step b ob))%nat
  end.

(** Penalties the player takes while [e] is handled in [g]: those of the
    [handle_obstacles] call of [update_play], when [loop] makes it. *)
Definition hits (g : Game) (e : Event) : nat :=
  match e with
  | Frame now _ =>
      match state g with
      | PLAY => penalty_count (obstacles g)
                              (advance (frame_dt now g)
                                       (set_last_time now g))
      | _ => 0%nat
      end
  | _ => 0%nat
  end.

(** Simulated time [e] adds: the [dt] of its [update_play], if any. *)
Definition sim_dt (g : Game) (e : Event) : Q :=
  match e with
  | Frame now _ =>
      match state g with
      | PLAY => frame_dt now g
      | _ => 0
      end
  | _ => 0
  end.

Fixpoint sim_time (g : Game) (es : list Event) : Q :=
  match es with
  | [] => 0
  | e :: es' => sim_dt g e + sim_time (step g e) es'
  end.

(** [time.perf_counter()] never runs backwards. *)
Fixpoint clock_monotone (g : Game) (es : list Event) : Prop :=
  match es with
  | [] => True
  | e :: es' =>
      match e with
      | Frame now _ => last_time g <= now
      | _ => True
      end /\ clock_monotone (step g e) es'
  end.

(** Every simulated step of the run is at most [d] long. *)
Fixpoint paced (d : Q) (g : Game) (es : list Event) : Prop :=
  match es with
  | [] => True
  | e :: es' => sim_dt g e <= d /\ paced d (step g e) es'
  end.

(** A race is (re)started exactly when the state enters GRID. *)
Definition enters_grid (g : Game) (e : Event) : bool :=
  negb (State_eqb (state g) GRID) && State_eqb (state (step g e)) GRID.

Fixpoint same_race (g : Game) (es : list Event) : Prop :=
  match es with
  | [] => True
  | e :: es' => enters_grid g e = false /\ same_race (step g e) es'
  end.

(** Number of GRID -> PLAY transitions along a run. *)
Fixpoint grid_to_play (g : Game) (es : list Event) : nat :=
  match es with
  | [] => 0
  | e :: es' =>
      ((if State_eqb (state g) GRID && State_eqb (state (step g e)) PLAY
        then 1 else 0)
       + grid_to_play (step g e) es')%nat
  end.

(** Number of simulated frames (calls of [update_play]) along a run. *)
Fixpoint sim_frames (g : Game) (es : list Event) : nat :=
  match es with
  | [] => 0
  | e :: es' =>
      (match e, state g with
       | Frame _ _, PLAY => 1
       | _, _ => 0
       end + sim_frames (step g e) es')%nat
  end.

Definition is_frame (e : Event) : Prop :=
  match e with Frame _ _ => True | _ => False end.

(** The countdown overlay of [e] reads the clock at or after [d]. *)
Definition draws_after (d : Q) (e : Event) : Prop :=
  match e with Frame _ tdraw => d <= tdraw | _ => False end.

(** ** Invariants and relations used in the statements *)

(** A finished vehicle has its time. *)
Definition timed (b : Bike) : Prop :=
  finished b = true -> finish_time b <> None.

(** How one frame treats the finish record of a vehicle. *)
Definition finish_rule (t : Q) (b b' : Bike) : Prop :=
  (finished b = true ->
   finished b' = true /\ finish_time b' = finish_time b)
  /\ (finished b = false -> TRACK_LENGTH <= xw b' ->
      finished b' = true /\ finish_time b' = Some t)
  /\ (finished b = false -> xw b' < TRACK_LENGTH ->
      finished b' = false /\ finish_time b' = finish_time b).

(** What the input handlers and the drawing leave alone in a vehicle. *)
Definition quiet (b b' : Bike) : Prop :=
  name b' = name b /\ xw b' = xw b /\ finished b' = finished b
  /\ finish_time b' = finish_time b /\ bump_cooldown b' = bump_cooldown b.

Definition finish_kept (b b' : Bike) : Prop :=
  finished b = true ->
  finished b' = true /\ finish_time b' = finish_time b.

(** How one frame moves a bot. *)
Definition bot_moved (dt : Q) (ai ai' : BotAI) : Prop :=
  (finished (bike ai) = false ->
   xw (bike ai') = xw (bike ai) + speed (bike ai') * dt)
  /\ (finished (bike ai) = true -> ai' = ai).

Definition by_time (a b : string * Q) : Prop := snd a <= snd b.
Definition by_xw (a b : Obstacle) : Prop := ob_xw a <= ob_xw b.

(** A bot is cruising when its speed is between zero and its target. *)
Definition cruising (ai : BotAI) : Prop :=
  0 <= target_speed ai
  /\ 0 <= speed (bike ai) /\ speed (bike ai) <= target_speed ai.

(** The counters and the record of the stats that only [end_race]
    writes. *)
Definition tally (g : Game) : option Z * option Z * option Q :=
  (total_races (stats g), wins (stats g), best_time (stats g)).

(** A vehicle as it stands on the grid. *)
Definition on_grid (b : Bike) : Prop :=
  xw b = 0.0 /\ speed b = 0.0 /\ vy b = 0.0 /\ y b = ground_y_at 0 - 40
  /\ finished b = false /\ finish_time b = None
  /\ engine_on b = false /\ bump_cooldown b = 0.0.

(** Where [spawn_obstacles] puts an obstacle and the sizes it gives. *)
Definition well_placed (ob : Obstacle) : Prop :=
  454 <= ob_xw ob /\ ob_xw ob <= 3147
  /\ match ob with
     | Rock _ r => (10 <= r <= 16)%Z
     | Log _ w h => (56 <= w <= 71)%Z /\ h = 12%Z
     | Ramp _ w h => w = 84%Z /\ h = 40%Z
     end.

(** What is used of the sine: it changes no faster than its argument. *)
Definition sin_lipschitz : Prop :=
  forall a b : Q,
    a <= b -> sin b - sin a <= b - a /\ sin a - sin b <= b - a.

(** An obstacle a bot does not look at: behind it, level with it, or at
    least [look] ahead. *)
Definition out_of_sight (look : Q) (b : Bike) (ob : Obstacle) : Prop :=
  ob_xw ob - xw b <= 0 \/ look <= ob_xw ob - xw b.

(** The sine is a function of the number, not of the fraction that
    writes it. *)
Definition sin_respects_eq : Prop :=
  forall a b : Q, a == b -> sin a == sin b.

(** The transitions of the race state machine. *)
Definition allowed (s s' : State) : bool :=
  match s, s' with
  | HOME, HOME | HOME, GRID
  | GRID, GRID | GRID, PLAY
  | PLAY, PLAY | PLAY, PAUSE | PLAY, END | PLAY, GRID
  | PAUSE, PAUSE | PAUSE, PLAY | PAUSE, GRID
  | END, END | END, GRID => true
  | _, _ => false
  end.

(** ** Sample states *)

(** The fields as [Game.__init__] assigns them, with the default stats. *)
Definition fresh_game : Game :=
  mkGame HOME [] 0.0 (new_bike "#FFD166" false "You") [] [] 0.0 None []
         BOT_COUNT_DEFAULT true 0 [] None default_stats.

(** A vehicle standing on the ground at [x]. *)
Definition grounded_bike (x : Q) : Bike :=
  set_y (ground_y_at x - 36) (set_xw x (new_bike "#FFD166" false "You")).

(** A race of the player against one bot that has crossed the line. *)
Definition finished_bot : BotAI :=
  let b := bike (mk_bot 0) in
  let b := set_speed 200 (set_xw 3700 b) in
  mkBotAI (set_finish 20 b) 220.0 0 "Bot 1".

Definition late_game : Game :=
  set_state PLAY
    (set_time_elapsed 21 (set_bot_ai [finished_bot] (start_race 0 fresh_game))).

(** The player standing at a rock tall enough to be hit from the ground,
    the race on. *)
Definition bump_game : Game :=
  set_state PLAY
    (set_obstacles [Rock 0 30]
       (set_player (grounded_bike 0) (start_race 0 fresh_game))).

(** Frames at [t0 + k/30] for the [k] of [ks], each drawn when it
    starts. *)
Definition frames_at (t0 : Q) (ks : list nat) : list Event :=
  map (fun k => let t := t0 + inject_Z (Z.of_nat k) / 30 in Frame t t) ks.

(** The player and two bots one unit before the line, all still racing. *)
Definition photo_finish : Game :=
  let near b := set_speed 220 (set_xw 3599 b) in
  let you := set_engine_on true
               (set_speed 270 (set_xw 3599 (new_bike "#FFD166" false "You"))) in
  let b1 := mkBotAI (near (bike (mk_bot 0))) 220.0 0 "Bot 1" in
  let b2 := mkBotAI (near (bike (mk_bot 1))) 232.0 10 "Bot 2" in
  set_state PLAY
    (set_time_elapsed 15
       (set_bot_ai [b1; b2] (set_player you (start_race 0 fresh_game)))).

(** The player a thousandth before the line at speed 100, throttle held,
    thirty seconds into the race. *)
Definition line_game : Game :=
  let you := set_engine_on true
               (set_speed 100 (grounded_bike (TRACK_LENGTH - 0.001))) in
  set_state PLAY
    (set_keys ["Right"%string]
       (set_time_elapsed 30 (set_player you (start_race 0 fresh_game)))).

(** The three times of the ranking scenario. *)
Definition podium_game : Game :=
  let you := set_finish 12.0 (new_bike "#FFD166" false "You") in
  let b1 := mkBotAI (set_finish 11.5 (bike (mk_bot 0))) 220.0 0 "Bot 1" in
  let b2 := mkBotAI (set_finish 13.0 (bike (mk_bot 1))) 232.0 10 "Bot 2" in
  set_state PLAY
    (set_time_elapsed 13.0
       (set_bot_ai [b1; b2] (set_player you (start_race 0 fresh_game)))).

(** * Properties *)

(** ** Comparisons *)

Lemma Qlt_bool_iff (a b : Q) : Qlt_bool a b = true <-> a < b.
Proof.
  unfold Qlt_bool. rewrite negb_true_iff.
  destruct (Qle_bool b a) eqn:E.
  - apply Qle_bool_iff in E. split; [discriminate | intro; lra].
  - split; [intros _ | reflexivity].
    destruct (Qlt_le_dec a b) as [H | H]; [exact H |].
    apply Qle_bool_iff in H. congruence.
Qed.

Lemma Qlt_bool_false (a b : Q) : Qlt_bool a b = false <-> b <= a.
Proof.
  unfold Qlt_bool. rewrite negb_false_iff. apply Qle_bool_iff.
Qed.

Lemma Qle_bool_false (a b : Q) : Qle_bool a b = false <-> b < a.
Proof.
  rewrite <- Qlt_bool_iff. unfold Qlt_bool.
  destruct (Qle_bool a b); simpl; intuition congruence.
Qed.

Lemma State_eqb_eq (a b : State) : State_eqb a b = true <-> a = b.
Proof. destruct a, b; simpl; split; congruence. Qed.

(** Case analysis on the comparisons of a goal or hypothesis. *)
Ltac qcase c :=
  let E := fresh "E" in
  destruct c eqn:E;
  [ try apply Qle_bool_iff in E | try apply Qle_bool_false in E ].

Ltac qcase_lt c :=
  let E := fresh "E" in
  destruct c eqn:E;
  [ try apply Qlt_bool_iff in E | try apply Qlt_bool_false in E ].

(** ** Vehicle physics *)

Lemma update_physics_xw dt b : xw (update_physics dt b) = xw b.
Proof.
  unfold update_physics; simpl.
  repeat match goal with |- context [if ?c then _ else _] => destruct c end;
    reflexivity.
Qed.

Lemma update_physics_finish dt b :
  finished (update_physics dt b) = finished b
  /\ finish_time (update_physics dt b) = finish_time b.
Proof.
  unfold update_physics; simpl.
  repeat match goal with |- context [if ?c then _ else _] => destruct c end;
    split; reflexivity.
Qed.

Lemma update_physics_speed dt b : speed (update_physics dt b) = speed b.
Proof.
  unfold update_physics; simpl.
  repeat match goal with |- context [if ?c then _ else _] => destruct c end;
    reflexivity.
Qed.

(** C2.  After [update_physics], for any start and any [dt >= 0], the
    vehicle is not below its floor [ground_y_at(xw) - 36]; when the
    integrated position reached the floor the vehicle is put on it with
    vertical velocity zero, and a vehicle left on the floor has vertical
    velocity zero. *)
Theorem update_physics_floor (dt : Q) (b : Bike) :
  0 <= dt ->
  let b' := update_physics dt b in
  let floor := ground_y_at (xw b') - 36 in
  let vy1 := vy b + GRAVITY * dt in
  y b' <= floor
  /\ (floor <= y b + vy1 * dt -> y b' = floor /\ vy b' = 0.0)
  /\ (y b' == floor -> vy b' = 0.0).
Proof.
  intros _ b' floor vy1. subst b' floor vy1.
  rewrite update_physics_xw.
  unfold update_physics; simpl.
  qcase (Qle_bool (ground_y_at (xw b) - 36)
                  (y b + (vy b + GRAVITY * dt) * dt)); simpl;
    destruct (Qlt_bool 0 (bump_cooldown b)); simpl;
    repeat split; intros; try reflexivity; try lra.
Qed.

(** ** Collisions *)

Ltac break_ifs :=
  repeat match goal with
         | |- context [if ?c then _ else _] => destruct c eqn:?; simpl
         end.

Lemma obstacle_step_frame b ob :
  xw (obstacle_step b ob) = xw b
  /\ y (obstacle_step b ob) = y b
  /\ finished (obstacle_step b ob) = finished b
  /\ finish_time (obstacle_step b ob) = finish_time b
  /\ name (obstacle_step b ob) = name b.
Proof.
  unfold obstacle_step. destruct (in_window b ob); [| tauto].
  destruct ob; simpl; break_ifs; tauto.
Qed.

Lemma handle_obstacles_frame obs : forall b,
  xw (handle_obstacles obs b) = xw b
  /\ y (handle_obstacles obs b) = y b
  /\ finished (handle_obstacles obs b) = finished b
  /\ finish_time (handle_obstacles obs b) = finish_time b
  /\ name (handle_obstacles obs b) = name b.
Proof.
  unfold handle_obstacles.
  induction obs as [| ob obs IH]; intro b; simpl; [tauto |].
  destruct (IH (obstacle_step b ob)) as (-> & -> & -> & -> & ->).
  apply obstacle_step_frame.
Qed.

Lemma on_ground_ext b b' :
  xw b' = xw b -> y b' = y b -> on_ground b' = on_ground b.
Proof. unfold on_ground. intros -> ->. reflexivity. Qed.

Lemma handle_obstacles_app obs1 obs2 b :
  handle_obstacles (obs1 ++ obs2) b
  = handle_obstacles obs2 (handle_obstacles obs1 b).
Proof. unfold handle_obstacles. apply fold_left_app. Qed.

(** A turn of the loop either leaves the timer or, when it applies a
    penalty, sets it to 0.6. *)
Lemma obstacle_step_cooldown b ob :
  bump_cooldown (obstacle_step b ob)
  = if penalised b ob then 0.6 else bump_cooldown b.
Proof.
  unfold obstacle_step, penalised.
  destruct (in_window b ob); simpl; [| reflexivity].
  destruct ob; simpl; break_ifs; reflexivity.
Qed.

Lemma penalised_expired b ob :
  penalised b ob = true -> bump_cooldown b <= 0.
Proof.
  unfold penalised. intro H.
  apply andb_true_iff in H as [_ H].
  destruct ob; try discriminate;
    apply andb_true_iff in H as [_ H]; now apply Qle_bool_iff in H.
Qed.

(** While the timer is positive nothing is penalised and the timer is
    left alone. *)
Lemma handle_obstacles_cooling obs : forall b,
  0 < bump_cooldown b ->
  penalty_count obs b = 0%nat
  /\ bump_cooldown (handle_obstacles obs b) = bump_cooldown b.
Proof.
  induction obs as [| ob obs IH]; intros b Hpos; simpl; [tauto |].
  assert (Hno : penalised b ob = false).
  { destruct (penalised b ob) eqn:E; [| reflexivity].
    apply penalised_expired in E. lra. }
  assert (Hc : bump_cooldown (obstacle_step b ob) = bump_cooldown b).
  { rewrite obstacle_step_cooldown, Hno. reflexivity. }
  rewrite Hno. simpl.
  destruct (IH (obstacle_step b ob)) as [H1 H2]; [rewrite Hc; exact Hpos |].
  unfold handle_obstacles in *. simpl. rewrite H1, H2, Hc. tauto.
Qed.

(** A call that applies a penalty found the timer expired and leaves it
    at 0.6. *)
Lemma handle_obstacles_hit obs : forall b,
  (0 < penalty_count obs b)%nat ->
  bump_cooldown b <= 0
  /\ bump_cooldown (handle_obstacles obs b) = 0.6.
Proof.
  induction obs as [| ob obs IH]; intros b Hhit; simpl in *; [lia |].
  destruct (penalised b ob) eqn:E.
  - split; [now apply penalised_expired in E |].
    assert (Hc : bump_cooldown (obstacle_step b ob) = 0.6).
    { rewrite obstacle_step_cooldown, E. reflexivity. }
    destruct (handle_obstacles_cooling obs (obstacle_step b ob)) as [_ H].
    { rewrite Hc. reflexivity. }
    unfold handle_obstacles in *. simpl. rewrite H. exact Hc.
  - simpl in Hhit. destruct (IH _ Hhit) as [H1 H2].
    rewrite obstacle_step_cooldown, E in H1.
    split; [exact H1 |]. unfold handle_obstacles in *. simpl. exact H2.
Qed.

Lemma handle_obstacles_cooldown obs : forall b,
  bump_cooldown (handle_obstacles obs b) = bump_cooldown b
  \/ bump_cooldown (handle_obstacles obs b) = 0.6.
Proof.
  intro b. destruct (penalty_count obs b) eqn:E.
  - left. revert b E.
    induction obs as [| ob obs IH]; intros b E; simpl in *; [reflexivity |].
    destruct (penalised b ob) eqn:P; simpl in E; [discriminate |].
    unfold handle_obstacles in *. simpl.
    rewrite (IH _ E), obstacle_step_cooldown, P. reflexivity.
  - right. apply handle_obstacles_hit. lia.
Qed.

Lemma update_physics_cooldown dt b :
  bump_cooldown (update_physics dt b)
  = if Qlt_bool 0 (bump_cooldown b) then bump_cooldown b - dt
    else bump_cooldown b.
Proof.
  unfold update_physics; simpl.
  destruct (Qle_bool _ _); simpl;
    destruct (Qlt_bool 0 (bump_cooldown b)); reflexivity.
Qed.

(** C9, as amended.  The timer is decremented by [dt] whenever it is
    positive, so it can end a step below zero but never by more than the
    step: with [0 <= dt <= D], the bound [-D <= bump_cooldown] is kept by
    [update_physics] and by [handle_obstacles]; from a non-negative value
    one step leaves it at least [-dt]; and [handle_obstacles], which
    leaves it or resets it to 0.6, keeps it non-negative. *)
Theorem bump_cooldown_bounded_below
        (D dt : Q) (obs : list Obstacle) (b : Bike) :
  0 <= dt -> dt <= D -> - D <= bump_cooldown b ->
  - D <= bump_cooldown (update_physics dt b)
  /\ - D <= bump_cooldown (handle_obstacles obs b)
  /\ (0 <= bump_cooldown b -> - dt <= bump_cooldown (update_physics dt b))
  /\ (0 <= bump_cooldown b -> 0 <= bump_cooldown (handle_obstacles obs b)).
Proof.
  intros Hdt HD Hb.
  rewrite update_physics_cooldown.
  destruct (handle_obstacles_cooldown obs b) as [-> | ->];
    qcase_lt (Qlt_bool 0 (bump_cooldown b));
    repeat split; intros; try lra; try (compute; discriminate).
Qed.

(** ** Ramps *)

Lemma obstacle_step_upward b ob :
  vy b < 0 -> vy (obstacle_step b ob) < 0.
Proof.
  intro H. unfold obstacle_step.
  destruct (in_window b ob); [| exact H].
  destruct ob; simpl; break_ifs; try exact H; reflexivity.
Qed.

Lemma handle_obstacles_upward obs : forall b,
  vy b < 0 -> vy (handle_obstacles obs b) < 0.
Proof.
  unfold handle_obstacles.
  induction obs as [| ob obs IH]; intros b H; simpl; [exact H |].
  apply IH, obstacle_step_upward, H.
Qed.

(** C3, as amended.  The ramp branch is reached only for an obstacle
    inside the window of the loop, [-30 <= ob.xw - bike.xw <= 30].  For a
    grounded vehicle inside the ramp's footprint extended by the margin
    and inside that window, the turn of the loop at the ramp sets the
    vertical velocity to [JUMP_VY * 0.9] and changes nothing else (the
    timer is not read, the speed is kept), whatever the obstacles before
    it did; and the vehicle leaves [handle_obstacles] moving upward. *)
Theorem ramp_launch_in_window
        (before after : list Obstacle) (x : Q) (w h : Z) (b : Bike) :
  on_ground b = true ->
  x - inject_Z w / 2 - 10 <= xw b ->
  xw b <= x + inject_Z w / 2 + 10 ->
  -30 <= x - xw b ->
  x - xw b <= 30 ->
  let b1 := handle_obstacles before b in
  obstacle_step b1 (Ramp x w h) = set_vy (JUMP_VY * 0.9) b1
  /\ vy (handle_obstacles (before ++ Ramp x w h :: after) b) < 0.
Proof.
  intros Hg Hl Hr Hlo Hhi b1.
  destruct (handle_obstacles_frame before b) as (Hx & Hy & _).
  fold b1 in Hx, Hy.
  assert (Hstep : obstacle_step b1 (Ramp x w h) = set_vy (JUMP_VY * 0.9) b1).
  { unfold obstacle_step, in_window. simpl. rewrite Hx.
    rewrite (on_ground_ext b b1 Hx Hy), Hg.
    assert (E1 : Qle_bool (-30) (x - xw b) = true) by now apply Qle_bool_iff.
    assert (E2 : Qle_bool (x - xw b) 30 = true) by now apply Qle_bool_iff.
    assert (E3 : Qle_bool (x - inject_Z w / 2 - 10) (xw b) = true)
      by now apply Qle_bool_iff.
    assert (E4 : Qle_bool (xw b) (x + inject_Z w / 2 + 10) = true)
      by now apply Qle_bool_iff.
    rewrite E1, E2, E3, E4. reflexivity. }
  split; [exact Hstep |].
  rewrite handle_obstacles_app. fold b1.
  change (handle_obstacles (Ramp x w h :: after) b1)
    with (handle_obstacles after (obstacle_step b1 (Ramp x w h))).
  apply handle_obstacles_upward. rewrite Hstep. reflexivity.
Qed.

(** ** Sorting *)

Section SortFacts.
Context {A : Type} (key : A -> Q).

Lemma insert_by_perm x l : Permutation (insert_by key x l) (x :: l).
Proof.
  induction l as [| y l IH]; simpl; [reflexivity |].
  destruct (Qle_bool (key x) (key y)); [reflexivity |].
  rewrite IH. apply perm_swap.
Qed.

Lemma sort_by_perm l : Permutation (sort_by key l) l.
Proof.
  induction l as [| x l IH]; simpl; [reflexivity |].
  rewrite insert_by_perm. now constructor.
Qed.

Lemma insert_by_Forall (P : A -> Prop) x l :
  P x -> Forall P l -> Forall P (insert_by key x l).
Proof.
  intros Hx Hl.
  apply (Permutation_Forall (Permutation_sym (insert_by_perm x l))).
  now constructor.
Qed.

Lemma insert_by_sorted x l :
  StronglySorted (le_key key) l -> StronglySorted (le_key key) (insert_by key x l).
Proof.
  induction 1 as [| y l Hs IH Hy]; simpl.
  - repeat constructor.
  - qcase (Qle_bool (key x) (key y)).
    + constructor; [now constructor |].
      constructor; [exact E |].
      eapply Forall_impl; [| exact Hy].
      unfold le_key. intros a Ha. lra.
    + constructor; [exact IH |].
      apply insert_by_Forall; [unfold le_key; lra | exact Hy].
Qed.

Lemma sort_by_sorted l : StronglySorted (le_key key) (sort_by key l).
Proof.
  induction l as [| x l IH]; simpl; [constructor |].
  now apply insert_by_sorted.
Qed.
End SortFacts.

(** ** Obstacle generation *)

Lemma spawn_loop_length mk ns : forall acc,
  List.length (fst (spawn_loop mk ns acc))
  = (List.length (fst acc) + List.length ns)%nat.
Proof.
  induction ns as [| n ns IH]; intro acc; simpl; [lia |].
  rewrite IH. simpl. rewrite length_app. simpl. lia.
Qed.

(** C6.  Obstacle generation has no input but the seed: [spawn_obstacles]
    seeds a generator of its own on every call, so any two runs, from
    whatever states and at whatever times, produce the same list, the one
    of seed 1337; the list depends on the seed only, and only through the
    31 bits the generator keeps; and for every seed the list holds the 28
    obstacles in ascending order of position. *)
Theorem spawn_obstacles_deterministic :
  (forall g1 g2 : Game,
      obstacles (spawn_obstacles g1) = obstacles (spawn_obstacles g2))
  /\ (forall (now1 now2 : Q) (g1 g2 : Game),
         obstacles (start_race now1 g1) = obstacles (start_race now2 g2))
  /\ (forall g : Game, obstacles (spawn_obstacles g) = gen_obstacles 1337)
  /\ (forall seed1 seed2 : Z,
         seeded_rand seed1 = seeded_rand seed2 ->
         gen_obstacles seed1 = gen_obstacles seed2)
  /\ (forall seed : Z,
         StronglySorted by_xw (gen_obstacles seed)
         /\ List.length (gen_obstacles seed) = 28%nat).
Proof.
  repeat split.
  - intros seed1 seed2 H. unfold gen_obstacles. rewrite H. reflexivity.
  - apply (sort_by_sorted ob_xw).
  - unfold gen_obstacles.
    rewrite (Permutation_length (sort_by_perm ob_xw _)).
    rewrite !spawn_loop_length. reflexivity.
Qed.

(** ** Results *)

Lemma end_race_results g :
  results (end_race g)
  = sort_by snd (map (score (time_elapsed g)) (everyone g)).
Proof. reflexivity. Qed.

Lemma end_race_wins g :
  wins (stats (end_race g))
  = match results (end_race g) with
    | first :: _ =>
        if is_you first then Some (get (wins (stats g)) 0 + 1)%Z
        else wins (stats g)
    | [] => wins (stats g)
    end.
Proof.
  rewrite end_race_results. unfold end_race.
  destruct (sort_by snd (map (score (time_elapsed g)) (everyone g)))
    as [| [n t] rest]; simpl.
  - reflexivity.
  - unfold is_you; simpl.
    destruct (String.eqb n "You"); simpl;
      repeat match goal with
             | |- context [match ?x with _ => _ end] => destruct x; simpl
             end; reflexivity.
Qed.

Lemma end_race_total g :
  total_races (stats (end_race g))
  = Some (get (total_races (stats g)) 0 + 1)%Z.
Proof.
  unfold end_race.
  repeat match goal with
         | |- context [match ?x with _ => _ end] => destruct x; simpl
         end; reflexivity.
Qed.

Lemma Some_succ_neq (o : option Z) : o <> Some (get o 0 + 1)%Z.
Proof. destruct o as [w |]; simpl; [| discriminate]. intro H. injection H. lia. Qed.

(** C5.  [end_race] ranks every entity, the player first and then the
    bots, by finish time, an entity without one taking the elapsed time
    of the race: the results are the pairs of a name and the finish time
    or, for want of one, the elapsed time, sorted ascending (a
    permutation of them, in order of time).  Every entity with a finish
    time is listed with it, every entity without one with the elapsed
    time, and nothing else is listed.  It adds one to the race count,
    and adds one to the win count exactly when the first result bears the
    player's name "You", leaving it alone otherwise.  With the times 12.0
    ("You"), 11.5 ("Bot 1") and 13.0 ("Bot 2") the order is Bot 1, You,
    Bot 2 and the win count is not touched; in [late_game] the player,
    not yet at the line, is listed at the 21 s elapsed behind the bot
    timed at 20; in [photo_finish] nobody has a time and all three are
    listed at the 15 s elapsed, in the order of the entities. *)
Theorem end_race_ranking :
  (forall g : Game,
      let g' := end_race g in
      let entry (b : Bike) : string * Q :=
        (name b, match finish_time b with
                 | Some t => t
                 | None => time_elapsed g
                 end) in
      let scored := map entry (player g :: bots g) in
      state g' = END
      /\ results g' = sort_by snd scored
      /\ Permutation (results g') scored
      /\ StronglySorted by_time (results g')
      /\ (forall b : Bike,
             b = player g \/ In b (bots g) ->
             (forall t : Q,
                 finish_time b = Some t -> In (name b, t) (results g'))
             /\ (finish_time b = None ->
                 In (name b, time_elapsed g) (results g')))
      /\ (forall (n : string) (t : Q),
             In (n, t) (results g') ->
             exists b : Bike,
               (b = player g \/ In b (bots g))
               /\ name b = n
               /\ (finish_time b = Some t
                   \/ (finish_time b = None /\ t = time_elapsed g)))
      /\ List.length (results g') = S (List.length (bot_ai g))
      /\ total_races (stats g') = Some (get (total_races (stats g)) 0 + 1)%Z
      /\ (wins (stats g') = Some (get (wins (stats g)) 0 + 1)%Z
          <-> exists t rest, results g' = ("You"%string, t) :: rest)
      /\ (wins (stats g') = wins (stats g)
          <-> ~ exists t rest, results g' = ("You"%string, t) :: rest))
  /\ map (fun b => (name b, finish_time b))
         (player podium_game :: bots podium_game)
     = [("You"%string, Some 12.0); ("Bot 1"%string, Some 11.5);
        ("Bot 2"%string, Some 13.0)]
  /\ results (end_race podium_game)
     = [("Bot 1"%string, 11.5); ("You"%string, 12.0); ("Bot 2"%string, 13.0)]
  /\ map fst (results (end_race podium_game))
     = ["Bot 1"%string; "You"%string; "Bot 2"%string]
  /\ wins (stats (end_race podium_game)) = wins (stats podium_game)
  /\ total_races (stats (end_race podium_game)) = Some 1%Z
  /\ map (fun b => (name b, finish_time b))
         (player late_game :: bots late_game)
     = [("You"%string, None); ("Bot 1"%string, Some 20)]
  /\ time_elapsed late_game = 21
  /\ results (end_race late_game)
     = [("Bot 1"%string, 20); ("You"%string, 21)]
  /\ map (fun b => (name b, finish_time b))
         (player photo_finish :: bots photo_finish)
     = [("You"%string, None); ("Bot 1"%string, None);
        ("Bot 2"%string, None)]
  /\ time_elapsed photo_finish = 15
  /\ results (end_race photo_finish)
     = [("You"%string, 15); ("Bot 1"%string, 15); ("Bot 2"%string, 15)].
Proof.
  split; [| vm_compute; repeat split].
  intros g g' entry scored.
  assert (R : results g' = sort_by snd scored) by apply end_race_results.
  assert (P : Permutation (results g') scored)
    by (rewrite R; apply sort_by_perm).
  split; [reflexivity |].
  split; [exact R |].
  split; [exact P |].
  split; [rewrite R; apply (sort_by_sorted snd) |].
  split.
  { intros b Hb.
    assert (I : In (entry b) (results g')).
    { apply (Permutation_in _ (Permutation_sym P)).
      apply in_map. destruct Hb as [-> | Hb]; [now left | now right]. }
    split.
    - intros t Ht. unfold entry in I. rewrite Ht in I. exact I.
    - intros Ht. unfold entry in I. rewrite Ht in I. exact I. }
  split.
  { intros n t I.
    apply (Permutation_in _ P) in I.
    apply in_map_iff in I. destruct I as (b & E & Hb).
    exists b. split.
    - destruct Hb as [<- | Hb]; [now left | now right].
    - unfold entry in E. injection E as En Et. split; [exact En |].
      destruct (finish_time b) as [ft |].
      + left. now rewrite Et.
      + right. split; [reflexivity | now symmetry]. }
  split.
  { rewrite (Permutation_length P). unfold scored, bots.
    rewrite length_map. simpl. rewrite length_map. reflexivity. }
  subst g' entry scored.
  split; [apply end_race_total |].
  rewrite end_race_wins.
  destruct (results (end_race g)) as [| [n t] rest].
  - split; split.
    + intro H. exfalso. exact (Some_succ_neq _ H).
    + intros (t & rest & H). discriminate.
    + intros _ (t & rest & H). discriminate.
    + reflexivity.
  - unfold is_you; simpl. destruct (String.eqb_spec n "You") as [-> | Hn].
    + split; split.
      * intros _. now exists t, rest.
      * reflexivity.
      * intro H. exfalso. exact (Some_succ_neq _ (eq_sym H)).
      * intro H. exfalso. apply H. now exists t, rest.
    + split; split.
      * intro H. exfalso. exact (Some_succ_neq _ H).
      * intros (t' & rest' & H). congruence.
      * intros _ (t' & rest' & H). congruence.
      * reflexivity.
Qed.

(** ** One frame of the race *)

Lemma control_frame dt g p :
  control dt g p = set_speed (speed (control dt g p)) p.
Proof.
  unfold control.
  repeat match goal with
         | |- context [if ?c then _ else _] => destruct c
         end; reflexivity.
Qed.

Lemma advance_xw dt g :
  xw (advance dt g) = xw (player g) + speed (control dt g (player g)) * dt.
Proof.
  unfold advance. rewrite update_physics_xw. simpl.
  rewrite (control_frame dt g (player g)) at 1. reflexivity.
Qed.

Lemma advance_record dt g :
  name (advance dt g) = name (player g)
  /\ finished (advance dt g) = finished (player g)
  /\ finish_time (advance dt g) = finish_time (player g).
Proof.
  unfold advance. rewrite (control_frame dt g (player g)).
  unfold update_physics; simpl.
  repeat match goal with
         | |- context [if ?c then _ else _] => destruct c; simpl
         end; tauto.
Qed.

Lemma advance_cooldown dt g :
  bump_cooldown (advance dt g)
  = if Qlt_bool 0 (bump_cooldown (player g))
    then bump_cooldown (player g) - dt
    else bump_cooldown (player g).
Proof.
  unfold advance. rewrite update_physics_cooldown.
  rewrite (control_frame dt g (player g)). reflexivity.
Qed.

Lemma jump_frame v b :
  xw (jump v b) = xw b /\ speed (jump v b) = speed b
  /\ name (jump v b) = name b /\ finished (jump v b) = finished b
  /\ finish_time (jump v b) = finish_time b
  /\ bump_cooldown (jump v b) = bump_cooldown b.
Proof. unfold jump. destruct (on_ground b); simpl; tauto. Qed.

Lemma look_ahead_frame look obs b :
  xw (look_ahead look obs b) = xw b
  /\ speed (look_ahead look obs b) = speed b
  /\ name (look_ahead look obs b) = name b
  /\ finished (look_ahead look obs b) = finished b
  /\ finish_time (look_ahead look obs b) = finish_time b
  /\ bump_cooldown (look_ahead look obs b) = bump_cooldown b.
Proof.
  induction obs as [| ob obs IH]; simpl; [tauto |].
  destruct (Qlt_bool 0 (ob_xw ob - xw b) && Qlt_bool (ob_xw ob - xw b) look);
    [| exact IH].
  destruct (on_ground b); [| tauto].
  destruct (is_ramp ob); apply jump_frame.
Qed.

(** A bot that has finished is returned as it is; any other is moved by
    its new speed times [dt]. *)
Lemma bot_step_moved dt obs ai :
  bot_moved dt ai (bot_step dt obs ai)
  /\ name (bike (bot_step dt obs ai)) = name (bike ai)
  /\ finished (bike (bot_step dt obs ai)) = finished (bike ai)
  /\ finish_time (bike (bot_step dt obs ai)) = finish_time (bike ai).
Proof.
  unfold bot_moved, bot_step.
  destruct (finished (bike ai)) eqn:F.
  - repeat split; try reflexivity; try discriminate. exact F.
  - cbv zeta.
    set (b1 := if Qlt_bool (speed (bike ai)) (target_speed ai)
               then _ else _).
    assert (H1 : name b1 = name (bike ai)
                 /\ finished b1 = finished (bike ai)
                 /\ finish_time b1 = finish_time (bike ai)).
    { subst b1. destruct (Qlt_bool _ _); simpl; tauto. }
    destruct H1 as (N1 & F1 & T1).
    set (b2 := look_ahead (140 + jump_bias ai) obs b1).
    destruct (look_ahead_frame (140 + jump_bias ai) obs b1)
      as (Hx & Hs & Hn & Hf & Ht & _).
    fold b2 in Hx, Hs, Hn, Hf, Ht.
    set (b3 := set_xw (xw b2 + speed b2 * dt) b2).
    destruct (update_physics_finish dt b3) as [Hf3 Ht3].
    cbn [bike].
    rewrite update_physics_xw, update_physics_speed, Hf3, Ht3.
    assert (Hn3 : name (update_physics dt b3) = name b3).
    { unfold update_physics; simpl.
      repeat match goal with
             | |- context [if ?c then _ else _] => destruct c; simpl
             end; reflexivity. }
    rewrite Hn3. subst b3. simpl. rewrite Hn, Hf, Ht, N1, F1, T1, F.
    assert (X1 : xw b1 = xw (bike ai)).
    { subst b1. destruct (Qlt_bool _ _); reflexivity. }
    rewrite Hx, X1.
    repeat split; try reflexivity; try discriminate.
Qed.

Lemma finish_check_frame t b :
  xw (finish_check t b) = xw b
  /\ name (finish_check t b) = name b
  /\ bump_cooldown (finish_check t b) = bump_cooldown b
  /\ speed (finish_check t b) = speed b.
Proof. unfold finish_check. destruct (_ && _); simpl; tauto. Qed.

Lemma finish_check_rule t b0 b1 :
  finished b1 = finished b0 -> finish_time b1 = finish_time b0 ->
  finish_rule t b0 (finish_check t b1).
Proof.
  intros Hf Ht. unfold finish_rule.
  destruct (finish_check_frame t b1) as (Hx & _). rewrite Hx.
  unfold finish_check. rewrite Hf.
  destruct (finished b0); simpl.
  - repeat split; try discriminate; intros; assumption.
  - qcase (Qle_bool TRACK_LENGTH (xw b1)); simpl;
      repeat split; intros; try discriminate; try assumption;
      try reflexivity; lra.
Qed.

Lemma update_play_player dt g :
  player (update_play dt g)
  = finish_check (time_elapsed g)
                 (handle_obstacles (obstacles g) (advance dt g)).
Proof. unfold update_play. destruct (forallb _ _); reflexivity. Qed.

Lemma update_play_bot_ai dt g :
  bot_ai (update_play dt g)
  = map (fun ai => finish_check_ai (time_elapsed g)
                                   (bot_step dt (obstacles g) ai))
        (bot_ai g).
Proof.
  unfold update_play. destruct (forallb _ _); simpl; apply map_map.
Qed.

Lemma update_play_state dt g :
  state (update_play dt g) = state g \/ state (update_play dt g) = END.
Proof. unfold update_play. destruct (forallb _ _); simpl; tauto. Qed.

Lemma Forall2_map_self {A B} (R : B -> B -> Prop) (p : A -> B)
      (f : A -> A) (l : list A) :
  (forall a, R (p a) (p (f a))) ->
  Forall2 R (map p l) (map p (map f l)).
Proof. intro H. induction l; simpl; constructor; auto. Qed.

Lemma Forall2_self_map {A} (R : A -> A -> Prop) (f : A -> A) (l : list A) :
  (forall a, R a (f a)) -> Forall2 R l (map f l).
Proof. intro H. induction l; simpl; constructor; auto. Qed.

(** C1, as amended.  In one call of [update_play] the player's position
    is advanced by its speed (as just set from the engine and the keys)
    times [dt], finished or not.  A bot is advanced by its speed times
    [dt] only while it has not finished: [BotAI.step] returns at once for
    a finished bot, which is left exactly as it was. *)
Theorem position_advance (dt : Q) (g : Game) :
  let g' := update_play dt g in
  xw (player g') = xw (player g) + speed (control dt g (player g)) * dt
  /\ Forall2 (bot_moved dt) (bot_ai g) (bot_ai g').
Proof.
  cbv zeta. split.
  - rewrite update_play_player.
    destruct (finish_check_frame (time_elapsed g)
                (handle_obstacles (obstacles g) (advance dt g))) as (-> & _).
    destruct (handle_obstacles_frame (obstacles g) (advance dt g))
      as (-> & _).
    apply advance_xw.
  - rewrite update_play_bot_ai. apply Forall2_self_map. intro ai.
    destruct (bot_step_moved dt (obstacles g) ai) as ([Hm Hs] & _ & Hf & _).
    unfold bot_moved. split.
    + intro F. unfold finish_check_ai. cbn [bike].
      destruct (finish_check_frame (time_elapsed g)
                  (bike (bot_step dt (obstacles g) ai)))
        as (-> & _ & _ & ->).
      exact (Hm F).
    + intro F. rewrite (Hs F). unfold finish_check_ai, finish_check.
      rewrite F. simpl. destruct ai; reflexivity.
Qed.

Lemma update_play_finish_rule dt g :
  Forall2 (finish_rule (time_elapsed g))
          (everyone g) (everyone (update_play dt g)).
Proof.
  unfold everyone, bots. constructor.
  - rewrite update_play_player.
    destruct (handle_obstacles_frame (obstacles g) (advance dt g))
      as (_ & _ & Hf & Ht & _).
    destruct (advance_record dt g) as (_ & Hf' & Ht').
    apply finish_check_rule; congruence.
  - rewrite update_play_bot_ai. apply Forall2_map_self. intro ai.
    destruct (bot_step_moved dt (obstacles g) ai) as (_ & _ & Hf & Ht).
    cbn [finish_check_ai bike]. now apply finish_check_rule.
Qed.

Lemma finish_rule_kept t b b' : finish_rule t b b' -> finish_kept b b'.
Proof. intros (H & _). exact H. Qed.

Lemma finish_rule_timed t b b' : finish_rule t b b' -> timed b -> timed b'.
Proof.
  unfold finish_rule, timed. intros (H1 & H2 & H3) Hb Hf'.
  destruct (finished b) eqn:F.
  - destruct (H1 eq_refl) as [_ ->]. auto.
  - destruct (Qlt_le_dec (xw b') TRACK_LENGTH) as [L | L].
    + destruct (H3 eq_refl L) as [F' _]. congruence.
    + destruct (H2 eq_refl L) as [_ ->]. discriminate.
Qed.

(** ** Events *)

Lemma quiet_refl b : quiet b b.
Proof. unfold quiet. tauto. Qed.

Lemma jump_quiet v b : quiet b (jump v b).
Proof. unfold quiet, jump. destruct (on_ground b); simpl; tauto. Qed.

Ltac splits := repeat match goal with |- _ /\ _ => split end.

Ltac quiet_tac :=
  first [ apply quiet_refl | apply jump_quiet
        | unfold quiet; simpl; tauto ].

Ltac still := splits; try quiet_tac; try reflexivity; try congruence;
              try tauto.

Lemma draw_effect t g :
  bot_ai (draw t g) = bot_ai g
  /\ quiet (player g) (player (draw t g))
  /\ (state (draw t g) = state g
      \/ (state g = GRID /\ state (draw t g) = PLAY
          /\ engine_on (player (draw t g)) = true)).
Proof.
  unfold draw. cbn [draw_ground state set_world_x].
  destruct (state g) eqn:S; simpl.
  2: { unfold draw_grid_overlay. simpl.
       destruct (countdown_end g) as [d |]; simpl; [| rewrite ?S; still].
       rewrite ?S. simpl. rewrite ?andb_true_r.
       destruct (_ =? 0)%Z; simpl; rewrite ?S; still. }
  all: rewrite ?S; still.
Qed.

(** Outside GRID drawing touches neither the state nor the vehicles. *)
Lemma draw_not_grid t g :
  state g <> GRID ->
  state (draw t g) = state g /\ player (draw t g) = player g.
Proof.
  intro H. unfold draw. cbn [draw_ground state set_world_x].
  destruct (state g) eqn:S; simpl; rewrite ?S; still.
Qed.

Lemma draw_home_effect t g :
  bot_ai (draw_home t g) = bot_ai g
  /\ quiet (player g) (player (draw_home t g))
  /\ (state (draw_home t g) = state g
      \/ (state g = GRID /\ state (draw_home t g) = PLAY
          /\ engine_on (player (draw_home t g)) = true)).
Proof.
  unfold draw_home. cbv zeta.
  match goal with |- context [draw t ?g0] =>
    destruct (draw_effect t g0) as (Hb & Hq & Hs) end.
  simpl in Hb, Hq, Hs. tauto.
Qed.

Lemma start_race_state now g : state (start_race now g) = GRID.
Proof. reflexivity. Qed.

Lemma pause_toggle_effect g :
  bot_ai (pause_toggle g) = bot_ai g
  /\ player (pause_toggle g) = player g
  /\ (state (pause_toggle g) = GRID <-> state g = GRID).
Proof.
  unfold pause_toggle. destruct (state g) eqn:S; simpl; rewrite ?S;
    repeat split; intros; congruence.
Qed.

Ltac home_action now :=
  let Hb := fresh "Hb" in
  let Hq := fresh "Hq" in
  let Hs := fresh "Hs" in
  match goal with |- context [draw_home now ?g0] =>
    destruct (draw_home_effect now g0) as (Hb & Hq & [Hs | Hs]) end;
  simpl in Hb, Hq, Hs; splits; try tauto; try congruence;
  destruct Hs; congruence.

Lemma advance_last_time dt now g :
  advance dt (set_last_time now g) = advance dt g.
Proof.
  unfold advance, control, has_key.
  cbn [keys player set_last_time]. reflexivity.
Qed.

Lemma loop_play now tdraw g :
  state g = PLAY ->
  player (loop now tdraw g) = player (update_play (frame_dt now g) g)
  /\ bot_ai (loop now tdraw g) = bot_ai (update_play (frame_dt now g) g)
  /\ state (loop now tdraw g) <> GRID
  /\ (state (loop now tdraw g) = PLAY \/ state (loop now tdraw g) = END).
Proof.
  intro S. unfold loop. cbv zeta. cbn [state set_last_time]. rewrite S.
  set (g1 := update_play (frame_dt now g) (set_last_time now g)).
  assert (Hg1 : state g1 = PLAY \/ state g1 = END).
  { subst g1.
    destruct (update_play_state (frame_dt now g) (set_last_time now g))
      as [H | H]; rewrite H; simpl; tauto. }
  assert (Hg1' : state g1 <> GRID) by (destruct Hg1; congruence).
  destruct (draw_not_grid tdraw g1 Hg1') as [Hst Hpl].
  destruct (draw_effect tdraw g1) as (Hb & _).
  rewrite Hst, Hpl, Hb. subst g1.
  rewrite !update_play_player, !update_play_bot_ai, advance_last_time.
  cbn [time_elapsed obstacles bot_ai set_last_time].
  splits; try reflexivity; assumption.
Qed.

Lemma loop_idle now tdraw g :
  state g <> PLAY ->
  bot_ai (loop now tdraw g) = bot_ai g
  /\ quiet (player g) (player (loop now tdraw g))
  /\ (state (loop now tdraw g) = state g
      \/ (state g = GRID /\ state (loop now tdraw g) = PLAY
          /\ engine_on (player (loop now tdraw g)) = true)).
Proof.
  intro S. unfold loop. cbv zeta. cbn [state set_last_time].
  destruct (draw_effect tdraw (set_last_time now g)) as (Hb & Hq & Hs).
  simpl in Hb, Hq, Hs.
  destruct (state g) eqn:E; try congruence; still.
Qed.

(** An event restarts the race, or is a simulated frame, or leaves the
    vehicles' positions, finish records and timers alone. *)
Lemma step_cases g e :
  (state g <> GRID /\ exists now g0, step g e = start_race now g0)
  \/ (exists now tdraw,
         e = Frame now tdraw /\ state g = PLAY
         /\ player (step g e) = player (update_play (frame_dt now g) g)
         /\ bot_ai (step g e) = bot_ai (update_play (frame_dt now g) g)
         /\ state (step g e) <> GRID)
  \/ (sim_dt g e = 0 /\ hits g e = 0%nat
      /\ quiet (player g) (player (step g e))
      /\ bot_ai (step g e) = bot_ai g
      /\ (state (step g e) = GRID -> state g = GRID)).
Proof.
  destruct e as [k now | k | ex ey now | now tdraw]; cbn [step sim_dt hits].
  - (* on_keydown *)
    unfold on_keydown.
    set (g1 := if has_key k g then g else set_keys (k :: keys g) g).
    assert (H1 : state g1 = state g /\ player g1 = player g
                 /\ bot_ai g1 = bot_ai g).
    { subst g1. destruct (has_key k g); simpl; tauto. }
    clearbody g1. destruct H1 as (Hs & Hp & Hb).
    destruct (String.eqb k "space").
    { right; right.
      destruct (state g1) eqn:S1; simpl; rewrite ?Hp, ?Hb; still. }
    destruct (String.eqb (lower k) "s").
    { right; right.
      destruct (state g1) eqn:S1; simpl; rewrite ?Hp, ?Hb; still. }
    destruct (String.eqb (lower k) "p").
    { right; right.
      destruct (pause_toggle_effect g1) as (Eb & Ep & Es).
      rewrite Eb, Ep, Hp, Hb. still.
      intro H. apply Es in H. congruence. }
    destruct (String.eqb (lower k) "r").
    { destruct (state g1) eqn:S1;
        try (left; split; [congruence | now exists now, g1]);
        right; right; rewrite ?Hp, ?Hb; still. }
    destruct (String.eqb k "Return").
    { destruct (state g1) eqn:S1;
        try (left; split; [congruence | now exists now, g1]);
        right; right; rewrite ?Hp, ?Hb; still. }
    right; right. rewrite Hp, Hb. still.
  - (* on_keyup *)
    right; right. still.
  - (* on_click *)
    unfold on_click. destruct (state g) eqn:S;
      try solve [right; right; rewrite ?S; still].
    + destruct (find _ (home_buttons g)) as [[bx cb] |];
        [| right; right; rewrite ?S; still].
      destruct cb; cbn [call];
        try (left; split; [congruence | now exists now, g]);
        right; right.
      * unfold dec_bots. home_action now.
      * unfold inc_bots. home_action now.
      * unfold toggle_rm. home_action now.
      * unfold to_home. cbv zeta. home_action now.
    + destruct (pause_btn_box g) as [bx |];
        [| right; right; rewrite ?S; still].
      right; right. destruct (inside bx ex ey); [| rewrite ?S; still].
      destruct (pause_toggle_effect g) as (Eb & Ep & Es).
      rewrite Eb, Ep. still.
      intro H. apply Es in H. congruence.
  - (* loop *)
    destruct (state g) eqn:S.
    3: { right; left. exists now, tdraw.
         destruct (loop_play now tdraw g S) as (Hp & Hb & Hs & _). still. }
    all: right; right;
      assert (S' : state g <> PLAY) by congruence;
      destruct (loop_idle now tdraw g S') as (Hb & Hq & Hs);
      rewrite S in Hs; splits; try reflexivity; try assumption;
      intros; destruct Hs as [Hs | (Hs1 & Hs2 & _)]; congruence.
Qed.

(** ** Finish records along a race *)

Lemma update_play_everyone dt g :
  everyone (update_play dt g) = everyone (update_play_checked dt g).
Proof.
  unfold update_play. destruct (forallb _ _); reflexivity.
Qed.

Lemma update_play_names dt g :
  name (player (update_play dt g)) = name (player g)
  /\ Forall2 (fun a a' => name (bike a') = name (bike a))
             (bot_ai g) (bot_ai (update_play dt g)).
Proof.
  split.
  - rewrite update_play_player.
    destruct (finish_check_frame (time_elapsed g)
                (handle_obstacles (obstacles g) (advance dt g)))
      as (_ & -> & _).
    destruct (handle_obstacles_frame (obstacles g) (advance dt g))
      as (_ & _ & _ & _ & ->).
    apply advance_record.
  - rewrite update_play_bot_ai. apply Forall2_self_map. intro ai.
    cbn [finish_check_ai bike].
    destruct (finish_check_frame (time_elapsed g)
                (bike (bot_step dt (obstacles g) ai))) as (_ & -> & _).
    apply bot_step_moved.
Qed.

Lemma Forall2_transfer {A} (R : A -> A -> Prop) (P Q' : A -> Prop) l l' :
  (forall a b, R a b -> P a -> Q' b) ->
  Forall2 R l l' -> Forall P l -> Forall Q' l'.
Proof.
  intros H F2. induction F2; intro F; inversion F; subst; constructor; eauto.
Qed.

Lemma Forall2_compose {A} (R : A -> A -> Prop) l1 l2 :
  (forall a b c, R a b -> R b c -> R a c) ->
  Forall2 R l1 l2 -> forall l3, Forall2 R l2 l3 -> Forall2 R l1 l3.
Proof.
  intros T F. induction F; intros l3 F'; inversion F'; subst;
    constructor; eauto.
Qed.

Lemma Forall2_same {A} (R : A -> A -> Prop) l :
  (forall a, R a a) -> Forall2 R l l.
Proof. intro H. induction l; constructor; auto. Qed.

Lemma Forall2_map_both {A B} (R : B -> B -> Prop) (p : A -> B) l l' :
  Forall2 (fun a a' => R (p a) (p a')) l l' ->
  Forall2 R (map p l) (map p l').
Proof. induction 1; simpl; constructor; auto. Qed.

Lemma finish_kept_trans a b c :
  finish_kept a b -> finish_kept b c -> finish_kept a c.
Proof.
  unfold finish_kept. intros H1 H2 F.
  destruct (H1 F) as [F1 T1]. destruct (H2 F1) as [F2 T2].
  split; congruence.
Qed.

Lemma quiet_kept b b' : quiet b b' -> finish_kept b b'.
Proof. unfold quiet, finish_kept. intros (_ & _ & -> & -> & _). tauto. Qed.

Lemma enters_grid_restart g e now g0 :
  state g <> GRID -> step g e = start_race now g0 ->
  enters_grid g e = true.
Proof.
  intros S E. unfold enters_grid. rewrite E. simpl.
  destruct (state g); simpl; congruence.
Qed.

(** Without a restart, an event keeps every finish record that is set. *)
Lemma step_finish_kept g e :
  enters_grid g e = false ->
  Forall2 finish_kept (everyone g) (everyone (step g e)).
Proof.
  intro NR.
  destruct (step_cases g e)
    as [(S & now & g0 & E)
       | [(now & tdraw & -> & S & Hp & Hb & _) | (_ & _ & Hq & Hb & _)]].
  - rewrite (enters_grid_restart g e now g0 S E) in NR. discriminate.
  - unfold everyone, bots. rewrite Hp, Hb.
    eapply Forall2_impl;
      [| exact (update_play_finish_rule (frame_dt now g) g)].
    intros a b. apply finish_rule_kept.
  - unfold everyone, bots. rewrite Hb. constructor.
    + now apply quiet_kept.
    + apply Forall2_same. unfold finish_kept. tauto.
Qed.

(** C4.  One call of [update_play] treats the finish record of every
    entity (the player, then the bots) in one of three ways: an entity
    already finished keeps its flag and its time; an entity not yet
    finished whose position after the move of this frame is at or past
    TRACK_LENGTH gets the flag and, as its time, the race time elapsed
    when the frame began ([time_elapsed] is advanced only at the end of
    the frame); any other entity stays unfinished with its record
    untouched.  Hence the record is written on the first frame the
    entity is at or past the line and, through every later frame and
    input of the same race, is never written again. *)
Theorem finish_recorded_once :
  (forall (dt : Q) (g : Game),
      Forall2 (finish_rule (time_elapsed g))
              (everyone g) (everyone (update_play dt g)))
  /\ (forall (es : list Event) (g : Game),
         same_race g es ->
         Forall2 finish_kept (everyone g) (everyone (run g es))).
Proof.
  split; [intros dt g; apply update_play_finish_rule |].
  induction es as [| e es IH]; intros g H; simpl in *.
  - apply Forall2_same. unfold finish_kept. tauto.
  - destruct H as [NR H].
    eapply Forall2_compose;
      [exact finish_kept_trans | apply step_finish_kept, NR |].
    apply IH, H.
Qed.

(** ** Invariants of a race *)

Lemma mk_bot_record i :
  name (bike (mk_bot i)) <> "You"%string /\ timed (bike (mk_bot i)).
Proof.
  unfold mk_bot, timed; simpl. split; discriminate.
Qed.

Lemma start_race_records now g :
  name (player (start_race now g)) = "You"%string
  /\ Forall (fun ai => name (bike ai) <> "You"%string)
            (bot_ai (start_race now g))
  /\ Forall timed (everyone (start_race now g)).
Proof.
  unfold everyone, bots, start_race, build_bots; simpl.
  split; [reflexivity |]. split.
  - apply Forall_forall. intros ai H. apply in_map_iff in H as (i & <- & _).
    apply mk_bot_record.
  - constructor; [unfold timed; simpl; discriminate |].
    apply Forall_forall. intros b H.
    apply in_map_iff in H as (ai & <- & H).
    apply in_map_iff in H as (i & <- & _).
    apply mk_bot_record.
Qed.

(** In a race the player is the entity named "You", and every finished
    entity has a finish time. *)
Lemma racing_records g :
  racing g ->
  name (player g) = "You"%string
  /\ Forall (fun ai => name (bike ai) <> "You"%string) (bot_ai g)
  /\ Forall timed (everyone g).
Proof.
  induction 1 as [now g | g e R (Hn & Hb & Ht)];
    [apply start_race_records |].
  destruct (step_cases g e)
    as [(S & now & g0 & E)
       | [(now & tdraw & -> & S & Ep & Eb & _) | (_ & _ & Hq & Eb & _)]].
  - rewrite E. apply start_race_records.
  - destruct (update_play_names (frame_dt now g) g) as [Np Nb].
    unfold everyone, bots. rewrite Ep, Eb. splits.
    + congruence.
    + eapply Forall2_transfer; [| exact Nb | exact Hb].
      simpl. intros a b E. congruence.
    + eapply Forall2_transfer;
        [| exact (update_play_finish_rule (frame_dt now g) g) | exact Ht].
      intros a b. apply finish_rule_timed.
  - unfold everyone, bots in *. rewrite Eb. splits.
    + destruct Hq as (-> & _). exact Hn.
    + exact Hb.
    + inversion Ht; subst. constructor; [| assumption].
      destruct Hq as (_ & _ & Hf & Hft & _).
      unfold timed in *. rewrite Hf, Hft. assumption.
Qed.

Lemma done_finished t b b' :
  finish_rule t b b' -> done b' = true -> finished b' = true.
Proof.
  intros (H1 & H2 & H3) D. destruct (finished b) eqn:F.
  - apply H1. reflexivity.
  - destruct (Qlt_le_dec (xw b') TRACK_LENGTH) as [L | L].
    + destruct (H3 eq_refl L) as [F' _].
      unfold done in D. rewrite F' in D. simpl in D.
      apply Qle_bool_iff in D. lra.
    + apply (H2 eq_refl L).
Qed.

(** C10.  In every state of a race a finished entity has its finish time;
    and from any such state, when the test "Race finished?" of
    [update_play] succeeds, so that [end_race] runs, every entity is
    already flagged finished and has a finish time: the finish check of
    the same frame has marked all those at or past the line.  The results
    are therefore the same whatever time the fallback for a missing
    finish time would supply. *)
Theorem end_race_all_finished :
  (forall g : Game, racing g -> Forall timed (everyone g))
  /\ (forall (g : Game) (dt : Q),
         Forall timed (everyone g) ->
         let g' := update_play_checked dt g in
         forallb done (everyone g') = true ->
         Forall (fun b => finished b = true
                          /\ exists t, finish_time b = Some t)
                (everyone g')
         /\ (forall now : Q,
                map (score now) (everyone g')
                = map (score (time_elapsed g')) (everyone g'))
         /\ update_play dt g
            = set_time_elapsed (time_elapsed g + dt) (end_race g')).
Proof.
  split; [intros g R; apply (racing_records g R) |].
  intros g dt Ht g' D.
  assert (F2 : Forall2 (finish_rule (time_elapsed g))
                       (everyone g) (everyone g')).
  { subst g'. rewrite <- update_play_everyone.
    apply update_play_finish_rule. }
  assert (All : Forall (fun b => finished b = true
                                  /\ exists t, finish_time b = Some t)
                       (everyone g')).
  { rewrite forallb_forall in D.
    assert (Hd : Forall (fun b => done b = true) (everyone g'))
      by (apply Forall_forall; exact D).
    clear D. revert Ht Hd.
    induction F2 as [| b b' l l' Hr F2 IH]; intros Ht Hd; constructor;
      inversion Ht; inversion Hd; subst; auto.
    assert (F' : finished b' = true) by (eapply done_finished; eauto).
    split; [exact F' |].
    assert (T' : timed b') by (eapply finish_rule_timed; eauto).
    destruct (finish_time b') as [t |] eqn:E; [now exists t |].
    exfalso. exact (T' F' E). }
  splits.
  - exact All.
  - intro now. apply map_ext_in. intros b Hb.
    rewrite Forall_forall in All.
    destruct (All b Hb) as (_ & t & E). unfold score. rewrite E. reflexivity.
  - unfold update_play. fold g'. rewrite D. reflexivity.
Qed.

(** ** The bump cooldown along a race *)

Lemma frame_dt_nonneg now g : last_time g <= now -> 0 <= frame_dt now g.
Proof.
  intro H. unfold frame_dt, py_min.
  assert (K : 1 / 30 == 1 # 30) by reflexivity.
  qcase_lt (Qlt_bool (1 / 30) (now - last_time g)); lra.
Qed.

Lemma update_play_cooldown dt g :
  bump_cooldown (player (update_play dt g))
  = bump_cooldown (handle_obstacles (obstacles g) (advance dt g)).
Proof.
  rewrite update_play_player. apply finish_check_frame.
Qed.

Lemma hits_frame g e :
  (0 < hits g e)%nat ->
  exists now tdraw,
    e = Frame now tdraw /\ state g = PLAY
    /\ (0 < penalty_count (obstacles g) (advance (frame_dt now g) g))%nat.
Proof.
  destruct e as [k now | k | ex ey now | now tdraw]; cbn [hits]; try lia.
  destruct (state g) eqn:S; try lia.
  rewrite advance_last_time.
  intro H. exists now, tdraw. splits; try reflexivity. exact H.
Qed.

(** The frame of a penalty leaves the player's timer at 0.6. *)
Lemma hit_resets g e :
  (0 < hits g e)%nat -> bump_cooldown (player (step g e)) = 0.6.
Proof.
  intro H. destruct (hits_frame g e H) as (now & tdraw & -> & S & P).
  simpl. destruct (loop_play now tdraw g S) as (-> & _).
  rewrite update_play_cooldown. now apply handle_obstacles_hit.
Qed.

(** A penalty needs the timer, as it stood before the frame, to be used
    up by the frame's [dt]. *)
Lemma hit_after_cooldown g e :
  clock_monotone g [e] -> (0 < hits g e)%nat ->
  bump_cooldown (player g) <= sim_dt g e.
Proof.
  intros (C & _) H.
  destruct (hits_frame g e H) as (now & tdraw & -> & S & P).
  simpl. rewrite S.
  apply handle_obstacles_hit in P as [P _].
  rewrite advance_cooldown in P.
  pose proof (frame_dt_nonneg now g C) as D.
  qcase_lt (Qlt_bool 0 (bump_cooldown (player g))); lra.
Qed.

(** Within a race no event lowers the timer by more than the simulated
    time it adds. *)
Lemma step_budget g e :
  enters_grid g e = false -> clock_monotone g [e] ->
  bump_cooldown (player g) <= sim_dt g e + bump_cooldown (player (step g e))
  /\ 0 <= sim_dt g e.
Proof.
  intros NR (C & _).
  destruct (step_cases g e)
    as [(S & now & g0 & E)
       | [(now & tdraw & -> & S & Hp & _) | (Hd & _ & Hq & _)]].
  - rewrite (enters_grid_restart g e now g0 S E) in NR. discriminate.
  - rewrite Hp, update_play_cooldown. simpl. rewrite S.
    pose proof (frame_dt_nonneg now g C) as D.
    split; [| exact D].
    destruct (penalty_count (obstacles g) (advance (frame_dt now g) g))
      eqn:P.
    + assert (K : bump_cooldown
                    (handle_obstacles (obstacles g)
                                      (advance (frame_dt now g) g))
                  = bump_cooldown (advance (frame_dt now g) g)).
      { destruct (handle_obstacles_cooldown (obstacles g)
                    (advance (frame_dt now g) g)) as [K | K]; [exact K |].
        revert P. generalize (advance (frame_dt now g) g).
        generalize (obstacles g). clear.
        induction l as [| ob obs IH]; intros b P; [reflexivity |].
        simpl in P. destruct (penalised b ob) eqn:E; simpl in P;
          [discriminate |].
        unfold handle_obstacles in *. simpl.
        rewrite (IH _ P), obstacle_step_cooldown, E. reflexivity. }
      rewrite K, advance_cooldown.
      qcase_lt (Qlt_bool 0 (bump_cooldown (player g))); lra.
    + assert (P' : (0 < penalty_count (obstacles g)
                                      (advance (frame_dt now g) g))%nat)
        by lia.
      apply handle_obstacles_hit in P' as [P1 P2].
      rewrite P2. rewrite advance_cooldown in P1.
      qcase_lt (Qlt_bool 0 (bump_cooldown (player g))); lra.
  - destruct Hq as (_ & _ & _ & _ & ->). rewrite Hd. split; lra.
Qed.

Lemma run_budget es : forall g e,
  same_race g es -> clock_monotone g (es ++ [e]) ->
  (0 < hits (run g es) e)%nat ->
  bump_cooldown (player g) <= sim_time g (es ++ [e]).
Proof.
  induction es as [| e1 es IH]; intros g e SR CM H; simpl in *.
  - pose proof (hit_after_cooldown g e CM H). lra.
  - destruct SR as [NR SR]. destruct CM as [C CM].
    destruct (step_budget g e1 NR (conj C I)) as [B _].
    pose proof (IH (step g e1) e SR CM H). lra.
Qed.

Lemma paced_time d es : forall g,
  0 <= d -> paced d g es ->
  sim_time g es <= inject_Z (Z.of_nat (sim_frames g es)) * d.
Proof.
  induction es as [| e es IH]; intros g Hd P;
    cbn [sim_time sim_frames paced] in *.
  - change (inject_Z (Z.of_nat 0)) with 0. lra.
  - destruct P as [P1 P2]. pose proof (IH (step g e) Hd P2) as B.
    rewrite Nat2Z.inj_add, inject_Z_plus.
    assert (K : sim_dt g e
                <= inject_Z (Z.of_nat match e, state g with
                                       | Frame _ _, PLAY => 1
                                       | _, _ => 0
                                       end) * d).
    { destruct e as [k now | k | ex ey now | now tdraw];
        cbn [sim_dt] in *;
        try (change (inject_Z (Z.of_nat 0)) with 0; lra).
      destruct (state g);
        try (change (inject_Z (Z.of_nat 0)) with 0; lra).
      change (inject_Z (Z.of_nat 1)) with 1. lra. }
    lra.
Qed.

(** C7.  After a frame in which the player took a rock or log penalty
    (which left the timer at 0.6), let the race go on through any inputs
    and frames, the clock never running backwards and the race not being
    restarted.  If a later frame applies a penalty again, the simulated
    time added since, that frame's [dt] included, is at least 0.6
    seconds.  At steps of at most 1/60 s this makes it the 36th
    simulated frame after the first penalty at the earliest: none of the
    35 frames before it applies one. *)
Theorem no_repeat_penalty
        (g0 : Game) (e0 : Event) (es : list Event) (e : Event) :
  (0 < hits g0 e0)%nat ->
  let g := step g0 e0 in
  same_race g es ->
  clock_monotone g (es ++ [e]) ->
  (0 < hits (run g es) e)%nat ->
  bump_cooldown (player g) = 0.6
  /\ 0.6 <= sim_time g (es ++ [e])
  /\ (paced (1 / 60) g (es ++ [e]) ->
      (36 <= sim_frames g (es ++ [e]))%nat).
Proof.
  intros H0 g SR CM H.
  pose proof (hit_resets g0 e0 H0) as C0. fold g in C0.
  pose proof (run_budget es g e SR CM H) as B. rewrite C0 in B.
  splits; [exact C0 | exact B |].
  intro P.
  assert (K : 1 / 60 == 1 # 60) by reflexivity.
  assert (Hd : 0 <= 1 / 60) by lra.
  pose proof (paced_time (1 / 60) (es ++ [e]) g Hd P) as T.
  destruct (le_lt_dec 36 (sim_frames g (es ++ [e]))) as [L | L];
    [exact L | exfalso].
  assert (Z : (Z.of_nat (sim_frames g (es ++ [e])) <= 35)%Z) by lia.
  rewrite Zle_Qle in Z. change (inject_Z 35) with 35 in Z.
  rewrite K in T. lra.
Qed.

(** ** The countdown *)

Lemma overlay_after_deadline tdraw d g :
  state g = GRID -> countdown_end g = Some d -> d <= tdraw ->
  draw_grid_overlay tdraw g
  = set_player (set_engine_on true (player g)) (set_state PLAY g).
Proof.
  intros S C D. unfold draw_grid_overlay. rewrite C, S. simpl.
  unfold py_max.
  assert (E : Qlt_bool 0 ((d - tdraw) * 1000) = false)
    by (apply Qlt_bool_false; lra).
  rewrite E. reflexivity.
Qed.

Lemma loop_grid now tdraw g :
  state g = GRID ->
  (state (loop now tdraw g) = GRID
   /\ countdown_end (loop now tdraw g) = countdown_end g)
  \/ (state (loop now tdraw g) = PLAY
      /\ engine_on (player (loop now tdraw g)) = true).
Proof.
  intro S. unfold loop, draw. cbv zeta. cbn [state set_last_time draw_ground
                                             set_world_x].
  rewrite S. unfold draw_grid_overlay. simpl.
  destruct (countdown_end g) as [d |] eqn:C; simpl; [| rewrite S; tauto].
  rewrite S. simpl. rewrite andb_true_r.
  destruct (_ =? 0)%Z; simpl; rewrite ?S, ?C; tauto.
Qed.

Lemma loop_deadline now tdraw d g :
  state g = GRID -> countdown_end g = Some d -> d <= tdraw ->
  state (loop now tdraw g) = PLAY
  /\ engine_on (player (loop now tdraw g)) = true.
Proof.
  intros S C D. unfold loop, draw. cbv zeta.
  cbn [state set_last_time draw_ground set_world_x]. rewrite S.
  rewrite overlay_after_deadline with (d := d); simpl; auto.
  rewrite S. simpl. tauto.
Qed.

Lemma grid_input_stays g e :
  state g = GRID -> ~ is_frame e -> state (step g e) = GRID.
Proof.
  intros S NF.
  destruct e as [k now | k | ex ey now | now tdraw]; simpl in *.
  - unfold on_keydown.
    set (g1 := if has_key k g then g else set_keys (k :: keys g) g).
    assert (S1 : state g1 = GRID).
    { subst g1. destruct (has_key k g); simpl; exact S. }
    clearbody g1. unfold pause_toggle.
    repeat match goal with
           | |- context [if ?c then _ else _] => destruct c
           end; rewrite ?S1; simpl; rewrite ?S1; reflexivity.
  - exact S.
  - unfold on_click. rewrite S. exact S.
  - tauto.
Qed.

Lemma after_start_frames es : forall g,
  Forall is_frame es -> state g = PLAY \/ state g = END ->
  grid_to_play g es = 0%nat.
Proof.
  induction es as [| e es IH]; intros g F S; simpl; [reflexivity |].
  inversion F as [| ? ? Fe Fes]; subst.
  destruct e as [k now | k | ex ey now | now tdraw]; simpl in Fe;
    try contradiction.
  assert (S' : state (step g (Frame now tdraw)) = PLAY
               \/ state (step g (Frame now tdraw)) = END).
  { simpl. destruct S as [S | S].
    - apply (loop_play now tdraw g S).
    - assert (NP : state g <> PLAY) by congruence.
      destruct (loop_idle now tdraw g NP) as (_ & _ & [H | (H & _)]);
        [right | ]; congruence. }
  rewrite (IH _ Fes S').
  destruct S as [S | S]; rewrite S; reflexivity.
Qed.

(** C8.  In GRID, the frame whose countdown overlay reads the clock at or
    after the deadline puts the state to PLAY and the player's engine
    on; whatever event takes the state from GRID to PLAY leaves the
    engine on, whatever it was before; and along any run of frames that
    starts in GRID and reaches the deadline the transition GRID -> PLAY
    happens exactly once. *)
Theorem countdown_starts_play_once :
  (forall (g : Game) (now tdraw d : Q),
      state g = GRID -> countdown_end g = Some d -> d <= tdraw ->
      state (loop now tdraw g) = PLAY
      /\ engine_on (player (loop now tdraw g)) = true)
  /\ (forall (g : Game) (e : Event),
         state g = GRID -> state (step g e) = PLAY ->
         engine_on (player (step g e)) = true)
  /\ (forall (es : list Event) (g : Game) (d : Q),
         state g = GRID -> countdown_end g = Some d ->
         Forall is_frame es -> Exists (draws_after d) es ->
         grid_to_play g es = 1%nat).
Proof.
  splits.
  - intros g now tdraw d. apply loop_deadline.
  - intros g e S P.
    destruct e as [k now | k | ex ey now | now tdraw];
      try (rewrite grid_input_stays in P; simpl; auto; discriminate).
    simpl in *. destruct (loop_grid now tdraw g S) as [[H _] | [_ H]];
      [congruence | exact H].
  - induction es as [| e es IH]; intros g d S C F X;
      [inversion X |].
    inversion F as [| ? ? Fe Fes]; subst.
    destruct e as [k now | k | ex ey now | now tdraw]; simpl in Fe;
      try contradiction.
    simpl. rewrite S. simpl.
    destruct (loop_grid now tdraw g S) as [[H HC] | [H _]].
    + rewrite H. simpl.
      apply (IH _ d); auto; [simpl; congruence |].
      inversion X as [? ? X1 | ? ? X1]; subst; [| exact X1].
      simpl in X1.
      destruct (loop_deadline now tdraw d g S C X1) as [H' _]. congruence.
    + rewrite H. simpl. f_equal.
      apply after_start_frames; [exact Fes | simpl; tauto].
Qed.

(** * Further properties of the race *)

(** ** Speeds and positions *)

Lemma control_speed dt g p :
  0 <= speed (control dt g p)
  /\ (0 <= dt -> 0 <= speed p -> speed p <= MAX_SPEED ->
      speed (control dt g p) <= MAX_SPEED).
Proof.
  unfold control, clamp, py_max, MAX_SPEED, ROLL_DECEL, ACCEL, BRAKE.
  destruct (engine_on p); simpl.
  - destruct (has_key "Right" g); [| destruct (has_key "Left" g)]; simpl;
      match goal with
      | |- context [Qlt_bool ?a 0] =>
          qcase_lt (Qlt_bool a 0); simpl;
          [| match goal with
             | |- context [Qlt_bool 270.0 ?c] =>
                 qcase_lt (Qlt_bool 270.0 c); simpl
             end ]
      end; split; intros; lra.
  - match goal with
    | |- context [Qlt_bool 0.0 ?a] => qcase_lt (Qlt_bool 0.0 a); simpl
    end; split; intros; lra.
Qed.

Lemma obstacle_step_speed b ob :
  0 <= speed b ->
  0 <= speed (obstacle_step b ob) /\ speed (obstacle_step b ob) <= speed b.
Proof.
  intro H. unfold obstacle_step.
  destruct (in_window b ob); [| lra].
  destruct ob; simpl; break_ifs; try lra;
    unfold py_max;
    match goal with
    | |- context [Qlt_bool ?a ?c] => qcase_lt (Qlt_bool a c); simpl
    end; lra.
Qed.

Lemma handle_obstacles_speed obs : forall b,
  0 <= speed b ->
  0 <= speed (handle_obstacles obs b)
  /\ speed (handle_obstacles obs b) <= speed b.
Proof.
  unfold handle_obstacles.
  induction obs as [| ob obs IH]; intros b H; simpl; [lra |].
  destruct (obstacle_step_speed b ob H) as [H1 H2].
  destruct (IH _ H1). lra.
Qed.

Lemma advance_speed dt g :
  speed (advance dt g) = speed (control dt g (player g)).
Proof. unfold advance. rewrite update_physics_speed. reflexivity. Qed.

Lemma update_play_speed dt g :
  speed (player (update_play dt g))
  = speed (handle_obstacles (obstacles g) (advance dt g)).
Proof. rewrite update_play_player. apply finish_check_frame. Qed.

Lemma update_play_xw dt g :
  xw (player (update_play dt g))
  = xw (player g) + speed (control dt g (player g)) * dt.
Proof.
  rewrite update_play_player.
  destruct (finish_check_frame (time_elapsed g)
              (handle_obstacles (obstacles g) (advance dt g))) as (-> & _).
  destruct (handle_obstacles_frame (obstacles g) (advance dt g))
    as (-> & _).
  apply advance_xw.
Qed.

(** X1.  One call of [update_play] with [dt >= 0] never moves the player
    backwards, whatever its speed was; and it keeps a speed that lies in
    [0, MAX_SPEED] inside that range, collisions included: a penalty
    only lowers the speed, and never below zero. *)
Theorem player_speed_in_range (dt : Q) (g : Game) :
  0 <= dt ->
  let p' := player (update_play dt g) in
  xw (player g) <= xw p'
  /\ 0 <= speed p'
  /\ (0 <= speed (player g) -> speed (player g) <= MAX_SPEED ->
      speed p' <= MAX_SPEED).
Proof.
  intros Hdt p'. subst p'.
  destruct (control_speed dt g (player g)) as [C0 CM].
  destruct (handle_obstacles_speed (obstacles g) (advance dt g))
    as [S0 S1]; [rewrite advance_speed; exact C0 |].
  rewrite advance_speed in S1.
  splits.
  - rewrite update_play_xw. nra.
  - rewrite update_play_speed. exact S0.
  - intros H0 HM. rewrite update_play_speed. specialize (CM Hdt H0 HM). lra.
Qed.

Lemma bot_step_cruise dt obs ai :
  0 <= dt -> cruising ai ->
  cruising (bot_step dt obs ai)
  /\ xw (bike ai) <= xw (bike (bot_step dt obs ai))
  /\ target_speed (bot_step dt obs ai) = target_speed ai.
Proof.
  intros Hdt (HT & H0 & H1). unfold cruising, bot_step.
  destruct (finished (bike ai)) eqn:F; [repeat split; auto; lra |].
  cbv zeta.
  set (b1 := if Qlt_bool (speed (bike ai)) (target_speed ai)
             then _ else _).
  assert (S1 : 0 <= speed b1 /\ speed b1 <= target_speed ai
               /\ xw b1 = xw (bike ai)).
  { subst b1. unfold py_min, py_max, ACCEL, ROLL_DECEL.
    qcase_lt (Qlt_bool (speed (bike ai)) (target_speed ai)); simpl.
    - match goal with
      | |- context [Qlt_bool ?a ?c] => qcase_lt (Qlt_bool a c); simpl
      end; repeat split; lra.
    - match goal with
      | |- context [Qlt_bool ?a ?c] => qcase_lt (Qlt_bool a c); simpl
      end; repeat split; lra. }
  destruct S1 as (A0 & A1 & AX).
  destruct (look_ahead_frame (140 + jump_bias ai) obs b1)
    as (Hx & Hs & _).
  cbn [bike target_speed].
  rewrite update_physics_speed, update_physics_xw. simpl.
  rewrite Hs, Hx, AX. repeat split; try lra. nra.
Qed.

(** X2.  With [dt >= 0], one call of [update_play] keeps every cruising
    bot cruising (speed between zero and its target, the target itself
    unchanged) and moves no such bot backwards.  The bots [build_bots]
    makes are cruising. *)
Theorem bots_keep_cruising :
  (forall (dt : Q) (g : Game),
      0 <= dt -> Forall cruising (bot_ai g) ->
      Forall cruising (bot_ai (update_play dt g))
      /\ Forall2 (fun a a' => xw (bike a) <= xw (bike a')
                              /\ target_speed a' = target_speed a)
                 (bot_ai g) (bot_ai (update_play dt g)))
  /\ (forall g : Game, Forall cruising (bot_ai (build_bots g))).
Proof.
  split.
  - intros dt g Hdt Hc. rewrite update_play_bot_ai.
    assert (K : forall ai, cruising ai ->
                cruising (finish_check_ai (time_elapsed g)
                            (bot_step dt (obstacles g) ai))
                /\ xw (bike ai)
                   <= xw (bike (finish_check_ai (time_elapsed g)
                                  (bot_step dt (obstacles g) ai)))
                /\ target_speed (finish_check_ai (time_elapsed g)
                                   (bot_step dt (obstacles g) ai))
                   = target_speed ai).
    { intros ai C.
      destruct (bot_step_cruise dt (obstacles g) ai Hdt C)
        as ((T & S0 & S1) & X & E).
      unfold cruising, finish_check_ai. cbn [bike target_speed].
      destruct (finish_check_frame (time_elapsed g)
                  (bike (bot_step dt (obstacles g) ai)))
        as (-> & _ & _ & ->).
      repeat split; assumption. }
    clear Hdt. induction Hc as [| ai l C Hc IH]; simpl.
    + split; constructor.
    + destruct IH as [I1 I2]. destruct (K ai C) as (K1 & K2 & K3).
      split; constructor; auto.
  - intro g. unfold build_bots. cbn [bot_ai set_bot_ai].
    apply Forall_forall. intros ai H.
    apply in_map_iff in H as (i & <- & H).
    unfold range in H. apply in_map_iff in H as (n & <- & _).
    unfold cruising, mk_bot; simpl.
    assert (0 <= inject_Z (Z.of_nat n)).
    { rewrite <- (Zle_Qle 0). lia. }
    repeat split; lra.
Qed.

(** ** The state machine *)

Lemma draw_home_state t g :
  state g = HOME -> state (draw_home t g) = HOME.
Proof.
  intro S. unfold draw_home, draw. cbv zeta.
  cbn [state draw_ground set_world_x set_home_buttons]. rewrite S.
  cbn [state draw_ground set_world_x set_home_buttons]. exact S.
Qed.

Lemma on_keydown_allowed k now g :
  allowed (state g) (state (on_keydown k now g)) = true.
Proof.
  unfold on_keydown.
  set (g1 := if has_key k g then g else set_keys (k :: keys g) g).
  assert (S1 : state g1 = state g).
  { subst g1. destruct (has_key k g); reflexivity. }
  rewrite <- S1. clearbody g1. clear S1. unfold pause_toggle.
  destruct (String.eqb k "space"); [| destruct (String.eqb (lower k) "s");
    [| destruct (String.eqb (lower k) "p");
       [| destruct (String.eqb (lower k) "r");
          [| destruct (String.eqb k "Return")]]]];
    destruct (state g1) eqn:E; simpl; rewrite ?E; reflexivity.
Qed.

Lemma on_click_allowed ex ey now g :
  allowed (state g) (state (on_click ex ey now g)) = true.
Proof.
  unfold on_click. destruct (state g) eqn:E; rewrite ?E; try reflexivity.
  - destruct (find _ (home_buttons g)) as [[bx cb] |];
      [| rewrite E; reflexivity].
    destruct cb; cbn [call];
      unfold dec_bots, inc_bots, toggle_rm, to_home;
      try (rewrite draw_home_state; [reflexivity | exact E]);
      try (rewrite draw_home_state; reflexivity).
    reflexivity.
  - destruct (pause_btn_box g) as [bx |]; [| rewrite E; reflexivity].
    destruct (inside bx ex ey); [| rewrite E; reflexivity].
    unfold pause_toggle. rewrite E. reflexivity.
Qed.

Lemma loop_allowed now tdraw g :
  allowed (state g) (state (loop now tdraw g)) = true.
Proof.
  destruct (state g) eqn:E.
  3: { destruct (loop_play now tdraw g E) as (_ & _ & _ & [-> | ->]);
       reflexivity. }
  all: assert (NP : state g <> PLAY) by congruence;
    destruct (loop_idle now tdraw g NP) as (_ & _ & [H | (H1 & H2 & _)]);
    [rewrite H, E; reflexivity | rewrite H2; try reflexivity; congruence].
Qed.

(** X3.  Every event moves the state along one of the transitions
    HOME -> GRID, GRID -> PLAY, PLAY <-> PAUSE, PLAY -> END, and
    PLAY, PAUSE or END -> GRID (restart), or leaves it where it is.  No
    transition leads to HOME: once a run has left HOME it never shows it
    again, and END is left only by a restart. *)
Theorem state_transitions :
  (forall (g : Game) (e : Event),
      allowed (state g) (state (step g e)) = true)
  /\ (forall (es : list Event) (g : Game),
         state g <> HOME -> state (run g es) <> HOME)
  /\ (forall (g : Game) (e : Event),
         state g = END ->
         state (step g e) = END \/ state (step g e) = GRID).
Proof.
  assert (A : forall g e, allowed (state g) (state (step g e)) = true).
  { intros g [k now | k | ex ey now | now tdraw]; cbn [step].
    - apply on_keydown_allowed.
    - unfold on_keyup. cbn [state set_keys]. destruct (state g); reflexivity.
    - apply on_click_allowed.
    - apply loop_allowed. }
  splits.
  - exact A.
  - induction es as [| e es IH]; intros g H; simpl; [exact H |].
    apply IH. intro H'. specialize (A g e). rewrite H' in A.
    destruct (state g); try discriminate. congruence.
  - intros g e H. specialize (A g e). rewrite H in A.
    destruct (state (step g e)); try discriminate; tauto.
Qed.

(** ** What the events leave alone *)

Lemma draw_fields t g :
  time_elapsed (draw t g) = time_elapsed g
  /\ obstacles (draw t g) = obstacles g
  /\ results (draw t g) = results g
  /\ stats (draw t g) = stats g
  /\ keys (draw t g) = keys g
  /\ bot_count (draw t g) = bot_count g
  /\ reduced_motion (draw t g) = reduced_motion g.
Proof.
  unfold draw. cbn [draw_ground state set_world_x].
  destruct (state g); simpl; try tauto.
  unfold draw_grid_overlay. simpl.
  destruct (countdown_end g); simpl; try tauto.
  destruct (_ && _); simpl; tauto.
Qed.

Lemma draw_home_fields t g :
  time_elapsed (draw_home t g) = time_elapsed g
  /\ obstacles (draw_home t g) = obstacles g
  /\ results (draw_home t g) = results g
  /\ stats (draw_home t g) = stats g
  /\ keys (draw_home t g) = keys g
  /\ bot_count (draw_home t g) = bot_count g
  /\ reduced_motion (draw_home t g) = reduced_motion g.
Proof.
  unfold draw_home. cbv zeta.
  match goal with |- context [draw t ?g0] =>
    destruct (draw_fields t g0) as (H1 & H2 & H3 & H4 & H5 & H6 & H7) end.
  simpl in H1, H2, H3, H4, H5, H6, H7. tauto.
Qed.

Lemma update_play_fields dt g :
  time_elapsed (update_play dt g) = time_elapsed g + dt
  /\ obstacles (update_play dt g) = obstacles g
  /\ keys (update_play dt g) = keys g
  /\ bot_count (update_play dt g) = bot_count g
  /\ reduced_motion (update_play dt g) = reduced_motion g.
Proof.
  unfold update_play. destruct (forallb _ _); simpl; tauto.
Qed.

(** [update_play] neither reads nor writes [last_time]. *)
Lemma update_play_last_time dt now g :
  update_play dt (set_last_time now g)
  = set_last_time now (update_play dt g).
Proof.
  unfold update_play, update_play_checked. rewrite advance_last_time.
  unfold everyone, bots.
  cbn [time_elapsed obstacles bot_ai player keys set_last_time
       set_bot_ai set_player].
  destruct (forallb done _); reflexivity.
Qed.

(** An event restarts the race, or is a simulated frame, or leaves the
    clock of the race, the track, the results and the tally alone. *)
Lemma step_fields g e :
  (state g <> GRID
   /\ exists now g0, step g e = start_race now g0 /\ stats g0 = stats g)
  \/ (exists now tdraw,
         e = Frame now tdraw /\ state g = PLAY
         /\ time_elapsed (step g e) = time_elapsed g + frame_dt now g
         /\ obstacles (step g e) = obstacles g
         /\ tally (step g e)
            = tally (update_play (frame_dt now g) g)
         /\ results (step g e)
            = results (update_play (frame_dt now g) g))
  \/ (sim_dt g e = 0
      /\ time_elapsed (step g e) = time_elapsed g
      /\ obstacles (step g e) = obstacles g
      /\ results (step g e) = results g
      /\ tally (step g e) = tally g).
Proof.
  destruct e as [k now | k | ex ey now | now tdraw]; cbn [step sim_dt].
  - unfold on_keydown.
    set (g1 := if has_key k g then g else set_keys (k :: keys g) g).
    assert (H1 : state g1 = state g /\ time_elapsed g1 = time_elapsed g
                 /\ obstacles g1 = obstacles g /\ results g1 = results g
                 /\ tally g1 = tally g /\ stats g1 = stats g).
    { subst g1. destruct (has_key k g); simpl; tauto. }
    clearbody g1. destruct H1 as (Hs & Ht & Ho & Hr & Hy & Hst).
    unfold pause_toggle.
    destruct (String.eqb k "space"); [| destruct (String.eqb (lower k) "s");
      [| destruct (String.eqb (lower k) "p");
         [| destruct (String.eqb (lower k) "r");
            [| destruct (String.eqb k "Return")]]]];
      destruct (state g1) eqn:E;
      try (left; split; [congruence | now exists now, g1]);
      right; right; unfold tally in *; simpl; splits; congruence.
  - right; right. unfold tally. simpl. tauto.
  - unfold on_click. destruct (state g) eqn:E;
      try (right; right; tauto).
    + destruct (find _ (home_buttons g)) as [[bx cb] |];
        [| right; right; tauto].
      destruct cb; cbn [call];
        try (left; split; [congruence | now exists now, g]);
        right; right; unfold dec_bots, inc_bots, toggle_rm, to_home, tally;
        cbv zeta;
        match goal with |- context [draw_home now ?g0] =>
          destruct (draw_home_fields now g0) as (H1 & H2 & H3 & H4 & _) end;
        rewrite H1, H2, H3, H4; simpl; tauto.
    + right; right. unfold pause_toggle, tally.
      destruct (pause_btn_box g) as [bx |]; [| tauto].
      destruct (inside bx ex ey); [| tauto].
      rewrite E. simpl. tauto.
  - unfold loop. cbv zeta. cbn [state set_last_time].
    destruct (state g) eqn:E;
      try solve [
        right; right;
        match goal with |- context [draw tdraw ?g0] =>
          destruct (draw_fields tdraw g0) as (H1 & H2 & H3 & H4 & _) end;
        unfold tally; rewrite H1, H2, H3, H4; simpl; tauto ].
    right; left. exists now, tdraw.
    match goal with |- context [draw tdraw ?g0] =>
      destruct (draw_fields tdraw g0) as (H1 & H2 & H3 & H4 & _) end.
    unfold tally. rewrite H1, H2, H3, H4, update_play_last_time.
    cbn [time_elapsed obstacles results stats set_last_time].
    destruct (update_play_fields (frame_dt now g) g) as (U1 & U2 & _).
    rewrite U1, U2. splits; reflexivity.
Qed.

(** X4.  The race clock adds up exactly the time steps of the simulated
    frames: an event that does not restart the race adds its [sim_dt] to
    [time_elapsed] (the [dt] of [update_play] for a frame in PLAY, nothing
    for any input and for a frame in HOME, GRID, PAUSE or END), so a run
    within one race adds its simulated time; and under a clock that does
    not run backwards every step is between 0 and 1/30 s. *)
Theorem race_clock :
  (forall (g : Game) (e : Event),
      enters_grid g e = false ->
      time_elapsed (step g e) == time_elapsed g + sim_dt g e)
  /\ (forall (es : list Event) (g : Game),
         same_race g es ->
         time_elapsed (run g es) == time_elapsed g + sim_time g es)
  /\ (forall (g : Game) (e : Event),
         clock_monotone g [e] ->
         0 <= sim_dt g e /\ sim_dt g e <= 1 # 30).
Proof.
  assert (A : forall g e, enters_grid g e = false ->
              time_elapsed (step g e) == time_elapsed g + sim_dt g e).
  { intros g e NR.
    destruct (step_fields g e)
      as [(S & now & g0 & E & _)
         | [(now & tdraw & -> & S & T & _) | (D & T & _)]].
    - rewrite (enters_grid_restart g e now g0 S E) in NR. discriminate.
    - rewrite T. simpl. rewrite S. reflexivity.
    - rewrite T, D. lra. }
  splits.
  - exact A.
  - induction es as [| e es IH]; intros g H; simpl.
    + lra.
    + destruct H as [NR H]. rewrite (IH _ H), (A g e NR). lra.
  - intros g e (C & _).
    destruct e as [k now | k | ex ey now | now tdraw]; simpl;
      try (split; [lra | discriminate]).
    destruct (state g); try (split; [lra | discriminate]).
    split; [now apply frame_dt_nonneg |].
    unfold frame_dt, py_min.
    assert (K : 1 / 30 == 1 # 30) by reflexivity.
    qcase_lt (Qlt_bool (1 / 30) (now - last_time g)); lra.
Qed.

(** X5.  A frame in HOME, PAUSE or END simulates nothing: the state, the
    player, the bots, the race clock, the track, the results and the
    stats are what they were (only the camera, the clock reading and the
    button boxes change). *)
Theorem frame_outside_race (now tdraw : Q) (g : Game) :
  state g <> PLAY -> state g <> GRID ->
  let g' := loop now tdraw g in
  state g' = state g /\ player g' = player g /\ bot_ai g' = bot_ai g
  /\ time_elapsed g' = time_elapsed g /\ obstacles g' = obstacles g
  /\ results g' = results g /\ stats g' = stats g.
Proof.
  intros NP NG g'. subst g'. unfold loop. cbv zeta.
  cbn [state set_last_time].
  assert (E : match state g with
              | PLAY => update_play (frame_dt now g) (set_last_time now g)
              | _ => set_last_time now g
              end = set_last_time now g)
    by (destruct (state g); congruence).
  rewrite E.
  assert (NG' : state (set_last_time now g) <> GRID) by exact NG.
  destruct (draw_not_grid tdraw _ NG') as [-> ->].
  destruct (draw_effect tdraw (set_last_time now g)) as (-> & _).
  destruct (draw_fields tdraw (set_last_time now g))
    as (-> & -> & -> & -> & _).
  simpl. tauto.
Qed.

Lemma update_play_tally dt g :
  tally (update_play dt g) = tally g
  \/ tally (update_play dt g)
     = tally (end_race (update_play_checked dt g)).
Proof.
  unfold update_play. destruct (forallb _ _); [right | left]; reflexivity.
Qed.

Lemma tally_eq a b :
  tally a = tally b ->
  total_races (stats a) = total_races (stats b)
  /\ wins (stats a) = wins (stats b)
  /\ best_time (stats a) = best_time (stats b).
Proof. unfold tally. intro H. injection H. tauto. Qed.

(** X6.  The counters only grow, and never by more than one race at a
    time: across any event the race count stays or goes up by one, the
    win count stays or goes up by one and only together with the race
    count, so a win count not above the race count stays so. *)
Theorem tally_grows (g : Game) (e : Event) :
  let total g := get (total_races (stats g)) 0%Z in
  let won g := get (wins (stats g)) 0%Z in
  (total (step g e) = total g /\ won (step g e) = won g)
  \/ (total (step g e) = (total g + 1)%Z
      /\ (won (step g e) = won g \/ won (step g e) = (won g + 1)%Z)).
Proof.
  cbv zeta.
  destruct (step_fields g e)
    as [(S & now & g0 & E & St)
       | [(now & tdraw & -> & S & _ & _ & T & _) | (_ & _ & _ & _ & T)]].
  - left. rewrite E.
    assert (K : stats (start_race now g0) = stats g0) by reflexivity.
    rewrite K, St. tauto.
  - apply tally_eq in T as (T1 & T2 & _).
    destruct (update_play_tally (frame_dt now g) g) as [U | U];
      apply tally_eq in U as (U1 & U2 & _); rewrite T1, T2, U1, U2.
    + left. tauto.
    + right. rewrite end_race_total, end_race_wins. cbn [get].
      assert (Hs : stats (update_play_checked (frame_dt now g) g) = stats g)
        by reflexivity.
      rewrite Hs. split; [reflexivity |].
      destruct (results _) as [| first rest]; [tauto |].
      destruct (is_you first); cbn [get]; tauto.
  - apply tally_eq in T as (T1 & T2 & _). left. rewrite T1, T2. tauto.
Qed.

(** ** The best time *)

Lemma find_only {A} (p : A -> bool) (x : A) (l : list A) :
  In x l -> p x = true ->
  (forall z, In z l -> p z = true -> z = x) ->
  find p l = Some x.
Proof.
  induction l as [| a l IH]; intros I P U; [destruct I |].
  simpl. destruct (p a) eqn:E.
  - f_equal. apply U; [now left | exact E].
  - apply IH; auto.
    + destruct I as [-> | I]; [congruence | exact I].
    + intros z Hz. apply U. now right.
Qed.

Lemma end_race_best g :
  best_time (stats (end_race g))
  = match find is_you (results (end_race g)) with
    | Some (_, pt) =>
        match best_time (stats g) with
        | None => Some pt
        | Some bt => if Qlt_bool pt bt then Some pt else Some bt
        end
    | None => best_time (stats g)
    end.
Proof.
  rewrite end_race_results. unfold end_race. cbv zeta.
  cbn [stats set_state set_stats set_results results best_time].
  destruct (find is_you _) as [[n pt] |];
    destruct (sort_by snd _) as [| first rest];
    try destruct (is_you first); cbn [best_time];
    destruct (best_time (stats g)) as [bt |]; try reflexivity;
    destruct (Qlt_bool pt bt); reflexivity.
Qed.

(** X7.  When the player is the one entity named "You" (as in every
    race), [end_race] sets the best time to the player's time if there
    was none or the player's time is strictly lower, and keeps it
    otherwise; the player's time is its finish time, or the elapsed time
    if it has none.  The best time is thus never raised. *)
Theorem end_race_best_time (g : Game) :
  name (player g) = "You"%string ->
  Forall (fun ai => name (bike ai) <> "You"%string) (bot_ai g) ->
  let pt := get (finish_time (player g)) (time_elapsed g) in
  best_time (stats (end_race g))
  = match best_time (stats g) with
    | None => Some pt
    | Some bt => if Qlt_bool pt bt then Some pt else Some bt
    end
  /\ (forall bt, best_time (stats g) = Some bt ->
      exists bt', best_time (stats (end_race g)) = Some bt' /\ bt' <= bt).
Proof.
  intros Hn Hb pt.
  assert (F : find is_you (results (end_race g)) = Some ("You"%string, pt)).
  { rewrite end_race_results.
    assert (Sc : score (time_elapsed g) (player g) = ("You"%string, pt)).
    { unfold score, pt, get. rewrite Hn. reflexivity. }
    apply find_only.
    - apply (Permutation_in _ (Permutation_sym (sort_by_perm snd _))).
      unfold everyone. simpl. left. exact Sc.
    - reflexivity.
    - intros z Hz Pz.
      apply (Permutation_in _ (sort_by_perm snd _)) in Hz.
      unfold everyone in Hz. simpl in Hz. destruct Hz as [<- | Hz];
        [exact Sc |].
      exfalso. unfold bots in Hz. rewrite map_map in Hz.
      apply in_map_iff in Hz as (ai & <- & Hai).
      rewrite Forall_forall in Hb. apply (Hb ai Hai).
      unfold is_you, score in Pz. simpl in Pz.
      now apply String.eqb_eq in Pz. }
  assert (E : best_time (stats (end_race g))
              = match best_time (stats g) with
                | None => Some pt
                | Some bt => if Qlt_bool pt bt then Some pt else Some bt
                end).
  { rewrite end_race_best, F. reflexivity. }
  split; [exact E |].
  intros bt Hbt. rewrite E, Hbt.
  qcase_lt (Qlt_bool pt bt); eexists; split; try reflexivity; lra.
Qed.

(** ** Starting a race *)

Lemma range_length n : List.length (range n) = Z.to_nat n.
Proof. unfold range. rewrite length_map, length_seq. reflexivity. Qed.

(** X8.  From any state whatever, [start_race] puts the game on the grid:
    state GRID, clock at zero, no results, the track of seed 1337, the
    player and [max(0, bot_count)] bots all at position zero, at rest,
    unfinished and with the engine off; keys held, preferences and stats
    are kept.  What the previous race left is discarded: restarting twice
    is restarting once. *)
Theorem start_race_resets (now : Q) (g : Game) :
  let g' := start_race now g in
  state g' = GRID /\ time_elapsed g' = 0.0 /\ results g' = []
  /\ obstacles g' = gen_obstacles 1337
  /\ List.length (bots g') = Z.to_nat (bot_count g)
  /\ Forall on_grid (everyone g')
  /\ keys g' = keys g /\ stats g' = stats g /\ bot_count g' = bot_count g
  /\ reduced_motion g' = reduced_motion g
  /\ (forall now', start_race now (start_race now' g) = g').
Proof.
  cbv zeta. splits; try reflexivity.
  - unfold bots, start_race, build_bots. cbn [bot_ai set_countdown_end
      set_bot_ai]. rewrite !length_map. apply range_length.
  - unfold everyone, bots, start_race, build_bots.
    cbn [bot_ai player set_countdown_end set_bot_ai set_player
         spawn_obstacles set_obstacles].
    constructor; [unfold on_grid; simpl; tauto |].
    apply Forall_forall. intros b H.
    apply in_map_iff in H as (ai & <- & H).
    apply in_map_iff in H as (i & <- & _).
    unfold on_grid; simpl; tauto.
Qed.

(** ** The generator and the layout of the track *)

Lemma land_mask_range a : (0 <= Z.land a 0x7fffffff <= 0x7fffffff)%Z.
Proof.
  change 0x7fffffff%Z with (Z.ones 31).
  rewrite Z.land_ones by lia.
  pose proof (Z.mod_pos_bound a (2 ^ 31) eq_refl) as H.
  change (Z.ones 31) with 2147483647%Z.
  change (2 ^ 31)%Z with 2147483648%Z in *. lia.
Qed.

Lemma rnd_range x :
  (0 <= fst (rnd x) <= 0x7fffffff)%Z
  /\ 0 <= snd (rnd x) /\ snd (rnd x) <= 1.
Proof.
  unfold rnd. cbn [fst snd].
  pose proof (land_mask_range (1103515245 * x + 12345)) as [L U].
  set (x' := Z.land (1103515245 * x + 12345) 0x7fffffff) in *.
  assert (P : 0 < inject_Z 0x7fffffff) by reflexivity.
  rewrite Zle_Qle in L, U.
  splits; try (rewrite <- Zle_Qle in L, U; assumption).
  - apply Qle_shift_div_l; [exact P |].
    change (inject_Z 0) with 0 in L. lra.
  - apply Qle_shift_div_r; [exact P |]. lra.
Qed.

Lemma py_int_range q k :
  0 <= q -> q <= inject_Z k -> (0 <= py_int q <= k)%Z.
Proof.
  destruct q as [n d]. unfold py_int, Qle, inject_Z. simpl. intros H0 H1.
  assert (Hn : (0 <= n)%Z) by lia.
  rewrite Z.quot_div_nonneg by lia. split.
  - apply Z.div_pos; lia.
  - apply Z.div_le_upper_bound; lia.
Qed.

Lemma jitter_range (r : Q) (k : Z) :
  (0 <= k)%Z -> 0 <= r -> r <= 1 ->
  0 <= inject_Z (py_int (r * inject_Z k))
  /\ inject_Z (py_int (r * inject_Z k)) <= inject_Z k.
Proof.
  intros Hk H0 H1.
  assert (K : 0 <= inject_Z k).
  { rewrite Zle_Qle in Hk. exact Hk. }
  destruct (py_int_range (r * inject_Z k) k) as [A B]; [nra | nra |].
  rewrite Zle_Qle in A, B. split; assumption.
Qed.

Lemma range_bounds n k : In k (range n) -> (0 <= k < n)%Z.
Proof.
  unfold range. intro H. apply in_map_iff in H as (i & <- & H).
  apply in_seq in H. lia.
Qed.

Lemma mk_rock_placed n r :
  In n (range OBST_ROCKS) -> 0 <= r -> r <= 1 -> well_placed (mk_rock n r).
Proof.
  intros Hn H0 H1. apply range_bounds in Hn. unfold OBST_ROCKS in Hn.
  destruct (jitter_range r 53 ltac:(lia) H0 H1) as [J0 J1].
  change (inject_Z 53) with 53 in J0, J1.
  unfold well_placed, mk_rock. cbn [ob_xw].
  assert (M : 1 <= inject_Z (n + 1) /\ inject_Z (n + 1) <= 12).
  { assert (A : (1 <= n + 1)%Z) by lia.
    assert (B : (n + 1 <= 12)%Z) by lia.
    rewrite Zle_Qle in A, B. split; assumption. }
  set (m := inject_Z (n + 1)) in *.
  assert (E : (TRACK_LENGTH - 480) * m / inject_Z (OBST_ROCKS + 1)
              == 240 * m).
  { unfold TRACK_LENGTH. change (inject_Z (OBST_ROCKS + 1)) with 13. field. }
  set (j := inject_Z (py_int (r * 53))) in *.
  pose proof (Z.mod_pos_bound (n * 31) 7 ltac:(lia)).
  splits; try lia; rewrite E; lra.
Qed.

Lemma mk_log_placed n r :
  In n (range OBST_LOGS) -> 0 <= r -> r <= 1 -> well_placed (mk_log n r).
Proof.
  intros Hn H0 H1. apply range_bounds in Hn. unfold OBST_LOGS in Hn.
  destruct (jitter_range r 73 ltac:(lia) H0 H1) as [J0 J1].
  change (inject_Z 73) with 73 in J0, J1.
  unfold well_placed, mk_log. cbn [ob_xw].
  assert (M : 1 <= inject_Z (n + 1) /\ inject_Z (n + 1) <= 8).
  { assert (A : (1 <= n + 1)%Z) by lia.
    assert (B : (n + 1 <= 8)%Z) by lia.
    rewrite Zle_Qle in A, B. split; assumption. }
  set (m := inject_Z (n + 1)) in *.
  assert (E : (TRACK_LENGTH - 800) * m / inject_Z (OBST_LOGS + 1)
              == (2800 # 9) * m).
  { unfold TRACK_LENGTH. change (inject_Z (OBST_LOGS + 1)) with 9. field. }
  set (j := inject_Z (py_int (r * 73))) in *.
  pose proof (Z.mod_pos_bound (n * 13) 16 ltac:(lia)).
  splits; try lia; rewrite E; lra.
Qed.

Lemma mk_ramp_placed n r :
  In n (range OBST_RAMPS) -> 0 <= r -> r <= 1 -> well_placed (mk_ramp n r).
Proof.
  intros Hn H0 H1. apply range_bounds in Hn. unfold OBST_RAMPS in Hn.
  destruct (jitter_range r 61 ltac:(lia) H0 H1) as [J0 J1].
  change (inject_Z 61) with 61 in J0, J1.
  unfold well_placed, mk_ramp. cbn [ob_xw].
  assert (M : 1 <= inject_Z (n + 1) /\ inject_Z (n + 1) <= 8).
  { assert (A : (1 <= n + 1)%Z) by lia.
    assert (B : (n + 1 <= 8)%Z) by lia.
    rewrite Zle_Qle in A, B. split; assumption. }
  set (m := inject_Z (n + 1)) in *.
  assert (E : (TRACK_LENGTH - 700) * m / inject_Z (OBST_RAMPS + 1)
              == (2900 # 9) * m).
  { unfold TRACK_LENGTH. change (inject_Z (OBST_RAMPS + 1)) with 9. field. }
  set (j := inject_Z (py_int (r * 61))) in *.
  splits; try lia; rewrite E; lra.
Qed.

Lemma spawn_loop_Forall (P : Obstacle -> Prop) mk ns :
  (forall n r, In n ns -> 0 <= r -> r <= 1 -> P (mk n r)) ->
  forall acc, Forall P (fst acc) -> Forall P (fst (spawn_loop mk ns acc)).
Proof.
  induction ns as [| n ns IH]; intros H acc F; cbn [spawn_loop];
    [exact F |].
  pose proof (rnd_range (snd acc)) as (_ & R0 & R1).
  destruct (rnd (snd acc)) as [x' r]. cbn [snd] in R0, R1.
  apply IH; [intros m r' Hm; apply H; now right |].
  cbn [fst]. apply Forall_app. split; [exact F |].
  constructor; [| constructor].
  apply H; [now left | exact R0 | exact R1].
Qed.

(** X9.  For every seed the generator yields values between 0 and 1 (1
    included: the state may be [0x7fffffff]), and every obstacle of the
    track lies between 454 and 3147, well inside the track of length
    3600, with the sizes of its kind: rocks of radius 10 to 16, logs of
    width 56 to 71 and height 12, ramps of width 84 and height 40. *)
Theorem obstacle_layout :
  (forall x : Z,
      (0 <= fst (rnd x) <= 0x7fffffff)%Z
      /\ 0 <= snd (rnd x) /\ snd (rnd x) <= 1)
  /\ (forall seed : Z, Forall well_placed (gen_obstacles seed))
  /\ (forall (now : Q) (g : Game),
         Forall (fun ob => 0 < ob_xw ob /\ ob_xw ob < TRACK_LENGTH)
                (obstacles (start_race now g))).
Proof.
  assert (A : forall seed, Forall well_placed (gen_obstacles seed)).
  { intro seed. unfold gen_obstacles. cbv zeta.
    apply (Permutation_Forall (Permutation_sym (sort_by_perm ob_xw _))).
    apply spawn_loop_Forall; [apply mk_ramp_placed |].
    apply spawn_loop_Forall; [apply mk_log_placed |].
    apply spawn_loop_Forall; [apply mk_rock_placed |].
    constructor. }
  splits.
  - apply rnd_range.
  - exact A.
  - intros now g.
    change (obstacles (start_race now g)) with (gen_obstacles 1337%Z).
    eapply Forall_impl; [| apply (A 1337%Z)].
    intros ob (L & U & _). unfold TRACK_LENGTH. split; lra.
Qed.

(** ** Collisions on gentle ground *)

(** Within the collision window the ground of a Lipschitz sine rises or
    falls by less than 4. *)
Lemma ground_gentle :
  sin_lipschitz ->
  forall x x', -30 <= x' - x -> x' - x <= 30 ->
  ground_y_at x - ground_y_at x' <= 4.
Proof.
  intros L x x' H1 H2. unfold ground_y_at, GROUND_BASE_Y.
  set (a := (x + 200) / 260.0). set (a' := (x' + 200) / 260.0).
  set (c := (x + 900) / 180.0). set (c' := (x' + 900) / 180.0).
  assert (Ea : a' - a == (x' - x) * (1 # 260)) by (subst a a'; field).
  assert (Ec : c' - c == (x' - x) * (1 # 180)) by (subst c c'; field).
  destruct (Qlt_le_dec x x') as [Hx | Hx].
  - assert (La : a <= a') by lra. assert (Lc : c <= c') by lra.
    destruct (L a a' La) as [_ Sa]. destruct (L c c' Lc) as [_ Sc]. lra.
  - assert (La : a' <= a) by lra. assert (Lc : c' <= c) by lra.
    destruct (L a' a La) as [Sa _]. destruct (L c' c Lc) as [Sc _]. lra.
Qed.

Lemma obstacle_step_unpenalised b ob :
  penalised b ob = false ->
  speed (obstacle_step b ob) = speed b
  /\ bump_cooldown (obstacle_step b ob) = bump_cooldown b.
Proof.
  unfold obstacle_step, penalised.
  destruct (in_window b ob); simpl; [| tauto].
  destruct ob; simpl; intro H; rewrite ?H; try tauto.
  destruct (_ && _); simpl; tauto.
Qed.

Lemma not_penalised_when_below b ob :
  sin_lipschitz -> well_placed ob ->
  y b <= ground_y_at (xw b) - 36 ->
  penalised b ob = false.
Proof.
  intros L (_ & _ & W) Hy.
  destruct (penalised b ob) eqn:P; [exfalso | reflexivity].
  unfold penalised, in_window in P.
  apply andb_true_iff in P as [Win P].
  apply andb_true_iff in Win as [W1 W2].
  apply Qle_bool_iff in W1, W2.
  destruct ob as [x r | x w h | x w h]; cbn [ob_xw] in *;
    try discriminate;
    apply andb_true_iff in P as [P _]; apply Qle_bool_iff in P;
    pose proof (ground_gentle L (xw b) x W1 W2) as G.
  - assert (R : inject_Z r <= 16).
    { destruct W as [_ W]. rewrite Zle_Qle in W. exact W. }
    lra.
  - destruct W as [_ ->]. change (inject_Z 12) with 12 in P. lra.
Qed.

Lemma handle_obstacles_no_penalty obs :
  sin_lipschitz -> Forall well_placed obs ->
  forall b, y b <= ground_y_at (xw b) - 36 ->
  penalty_count obs b = 0%nat
  /\ speed (handle_obstacles obs b) = speed b
  /\ bump_cooldown (handle_obstacles obs b) = bump_cooldown b.
Proof.
  intros L F. unfold handle_obstacles.
  induction F as [| ob obs W F IH]; intros b Hy; simpl; [tauto |].
  pose proof (not_penalised_when_below b ob L W Hy) as P.
  destruct (obstacle_step_unpenalised b ob P) as [S C].
  destruct (obstacle_step_frame b ob) as (Ex & Ey & _).
  destruct (IH (obstacle_step b ob)) as (I1 & I2 & I3);
    [rewrite Ex, Ey; exact Hy |].
  rewrite P, I1, I2, I3, S, C. tauto.
Qed.

Lemma update_physics_below dt b :
  y (update_physics dt b) <= ground_y_at (xw (update_physics dt b)) - 36.
Proof.
  rewrite update_physics_xw. unfold update_physics; simpl.
  qcase (Qle_bool (ground_y_at (xw b) - 36)
                  (y b + (vy b + GRAVITY * dt) * dt)); simpl;
    destruct (Qlt_bool 0 (bump_cooldown b)); simpl; lra.
Qed.

Lemma racing_track g : racing g -> obstacles g = gen_obstacles 1337.
Proof.
  induction 1 as [now g | g e R IH]; [reflexivity |].
  destruct (step_fields g e)
    as [(S & now & g0 & E & _)
       | [(now & tdraw & -> & _ & _ & O & _) | (_ & _ & O & _)]].
  - rewrite E. reflexivity.
  - rewrite O. exact IH.
  - rewrite O. exact IH.
Qed.

(** X10.  If the sine changes no faster than its argument (as the real
    sine does), the ground differs by less than 4 across the collision
    window, while a rock or log reaches at most 26 above its ground and
    a vehicle is never lower than 36 above its own: [handle_obstacles]
    then applies no penalty for any well placed obstacle, leaving speed
    and timer as they are.  So in a race no frame penalises the player,
    and [update_play] leaves the player the speed set from the engine
    and the keys. *)
Theorem no_penalty_on_gentle_ground :
  sin_lipschitz ->
  (forall (obs : list Obstacle) (b : Bike),
      Forall well_placed obs ->
      y b <= ground_y_at (xw b) - 36 ->
      penalty_count obs b = 0%nat
      /\ speed (handle_obstacles obs b) = speed b
      /\ bump_cooldown (handle_obstacles obs b) = bump_cooldown b)
  /\ (forall (g : Game) (e : Event), racing g -> hits g e = 0%nat)
  /\ (forall (g : Game) (dt : Q),
         racing g ->
         speed (player (update_play dt g))
         = speed (control dt g (player g))
         /\ (bump_cooldown (player g) = 0.0 ->
             bump_cooldown (player (update_play dt g)) = 0.0)).
Proof.
  intro L.
  assert (A : forall obs b, Forall well_placed obs ->
              y b <= ground_y_at (xw b) - 36 ->
              penalty_count obs b = 0%nat
              /\ speed (handle_obstacles obs b) = speed b
              /\ bump_cooldown (handle_obstacles obs b) = bump_cooldown b).
  { intros obs b F Hy. now apply handle_obstacles_no_penalty. }
  assert (W : forall g, racing g -> Forall well_placed (obstacles g)).
  { intros g R. rewrite (racing_track g R).
    unfold gen_obstacles. cbv zeta.
    apply (Permutation_Forall (Permutation_sym (sort_by_perm ob_xw _))).
    apply spawn_loop_Forall; [apply mk_ramp_placed |].
    apply spawn_loop_Forall; [apply mk_log_placed |].
    apply spawn_loop_Forall; [apply mk_rock_placed |].
    constructor. }
  splits.
  - exact A.
  - intros g e R.
    destruct e as [k now | k | ex ey now | now tdraw]; cbn [hits];
      try reflexivity.
    destruct (state g); try reflexivity.
    rewrite advance_last_time.
    apply A; [apply W, R |]. unfold advance. apply update_physics_below.
  - intros g dt R.
    destruct (A (obstacles g) (advance dt g) (W g R)) as (_ & S & C).
    { unfold advance. apply update_physics_below. }
    rewrite update_play_speed, update_play_cooldown, S, C, advance_speed.
    split; [reflexivity |].
    intro Z. rewrite advance_cooldown, Z. reflexivity.
Qed.

(** ** Keys *)

Lemma on_keydown_keys k now g :
  keys (on_keydown k now g)
  = if has_key k g then keys g else k :: keys g.
Proof.
  unfold on_keydown.
  set (g1 := if has_key k g then g else set_keys (k :: keys g) g).
  assert (K : keys g1 = if has_key k g then keys g else k :: keys g).
  { subst g1. destruct (has_key k g); reflexivity. }
  rewrite <- K. clearbody g1. clear K. unfold pause_toggle.
  destruct (String.eqb k "space"); [| destruct (String.eqb (lower k) "s");
    [| destruct (String.eqb (lower k) "p");
       [| destruct (String.eqb (lower k) "r");
          [| destruct (String.eqb k "Return")]]]];
    destruct (state g1); reflexivity.
Qed.

Lemma existsb_filter_out (k k' : string) (l : list string) :
  existsb (String.eqb k')
          (filter (fun x => negb (String.eqb k x)) l)
  = existsb (String.eqb k') l && negb (String.eqb k k').
Proof.
  induction l as [| x l IH]; simpl; [reflexivity |].
  destruct (String.eqb_spec k x) as [-> | N]; simpl.
  - rewrite IH. destruct (String.eqb_spec k' x) as [-> | N']; simpl.
    + rewrite String.eqb_refl. simpl. apply andb_false_r.
    + reflexivity.
  - rewrite IH. destruct (String.eqb_spec k' x) as [-> | N']; simpl.
    + destruct (String.eqb_spec k x); [contradiction | reflexivity].
    + reflexivity.
Qed.

(** X11.  [keys] is the set of keys that are down: a key is in it after
    its press and not after its release, and neither a press nor a
    release of another key changes that, whatever else the press does
    (jump, pause, restart). *)
Theorem keys_track_held (k k' : string) (now : Q) (g : Game) :
  has_key k (on_keydown k now g) = true
  /\ has_key k (on_keyup k g) = false
  /\ (k' <> k ->
      has_key k' (on_keydown k now g) = has_key k' g
      /\ has_key k' (on_keyup k g) = has_key k' g).
Proof.
  unfold has_key. rewrite !on_keydown_keys. unfold on_keyup.
  cbn [keys set_keys]. rewrite !existsb_filter_out. splits.
  - fold (has_key k g). destruct (has_key k g) eqn:E; [exact E |].
    simpl. rewrite String.eqb_refl. reflexivity.
  - rewrite String.eqb_refl. apply andb_false_r.
  - intro N. fold (has_key k g). destruct (has_key k g); split;
      simpl;
      destruct (String.eqb_spec k' k); try contradiction;
      destruct (String.eqb_spec k k'); try (subst; contradiction);
      simpl; rewrite ?andb_true_r; reflexivity.
Qed.

(** X12.  [update_play] reads of the keys only whether "Right" and
    whether "Left" is held: with any other set of keys that agrees on
    these two the frame is the same.  In particular a press of the jump
    key that was not taken ("space" stays among the keys while held)
    leaves nothing behind for later frames. *)
Theorem play_reads_throttle_keys (dt : Q) (ks : list string) (g : Game) :
  existsb (String.eqb "Right") ks = has_key "Right" g ->
  existsb (String.eqb "Left") ks = has_key "Left" g ->
  update_play dt (set_keys ks g) = set_keys ks (update_play dt g)
  /\ update_play dt (set_keys ("space"%string :: keys g) g)
     = set_keys ("space"%string :: keys g) (update_play dt g).
Proof.
  intros R L. split.
  - unfold update_play, update_play_checked, advance, control, has_key.
    unfold everyone, bots.
    cbn [time_elapsed obstacles bot_ai player keys set_keys
         set_bot_ai set_player].
    rewrite R, L. unfold has_key.
    destruct (forallb done _); reflexivity.
  - unfold update_play, update_play_checked, advance, control, has_key.
    unfold everyone, bots.
    cbn [time_elapsed obstacles bot_ai player keys set_keys
         set_bot_ai set_player existsb String.eqb Ascii.eqb Bool.eqb orb].
    destruct (forallb done _); reflexivity.
Qed.

(** ** What a bot looks at *)

Lemma look_ahead_skip look b pre : forall rest,
  Forall (out_of_sight look b) pre ->
  look_ahead look (pre ++ rest) b = look_ahead look rest b.
Proof.
  induction pre as [| ob pre IH]; intros rest F; [reflexivity |].
  inversion F as [| ? ? O F']; subst. simpl.
  assert (E : Qlt_bool 0 (ob_xw ob - xw b)
              && Qlt_bool (ob_xw ob - xw b) look = false).
  { apply andb_false_iff. destruct O as [O | O];
      [left | right]; now apply Qlt_bool_false. }
  rewrite E. now apply IH.
Qed.

(** X13.  The look-ahead of a bot changes nothing when the bot is in the
    air, or when every obstacle is behind it, level with it or at least
    [look] ahead.  Otherwise the first obstacle in the list that is
    strictly ahead and closer than [look] decides alone: a grounded bot
    gets the vertical velocity [JUMP_VY * 0.95] for a ramp and
    [JUMP_VY * 0.88] for a rock or a log, whatever follows in the
    list. *)
Theorem look_ahead_first_in_sight (look : Q) (b : Bike) :
  (forall obs, on_ground b = false -> look_ahead look obs b = b)
  /\ (forall obs,
         Forall (out_of_sight look b) obs -> look_ahead look obs b = b)
  /\ (forall pre ob post,
         Forall (out_of_sight look b) pre ->
         0 < ob_xw ob - xw b -> ob_xw ob - xw b < look ->
         on_ground b = true ->
         look_ahead look (pre ++ ob :: post) b
         = set_vy (JUMP_VY * (if is_ramp ob then 0.95 else 0.88)) b).
Proof.
  splits.
  - intros obs G. induction obs as [| ob obs IH]; simpl; [reflexivity |].
    rewrite G. destruct (_ && _); [reflexivity | exact IH].
  - intros obs F. rewrite <- (app_nil_r obs).
    now rewrite look_ahead_skip.
  - intros pre ob post F H1 H2 G.
    rewrite look_ahead_skip by exact F. simpl.
    apply Qlt_bool_iff in H1, H2. rewrite H1, H2, G. simpl.
    unfold jump. rewrite G. destruct (is_ramp ob); reflexivity.
Qed.

(** ** The number of bots *)

Lemma on_keydown_bot_count k now g :
  bot_count (on_keydown k now g) = bot_count g.
Proof.
  unfold on_keydown.
  set (g1 := if has_key k g then g else set_keys (k :: keys g) g).
  assert (K : bot_count g1 = bot_count g).
  { subst g1. destruct (has_key k g); reflexivity. }
  rewrite <- K. clearbody g1. clear K. unfold pause_toggle.
  destruct (String.eqb k "space"); [| destruct (String.eqb (lower k) "s");
    [| destruct (String.eqb (lower k) "p");
       [| destruct (String.eqb (lower k) "r");
          [| destruct (String.eqb k "Return")]]]];
    destruct (state g1); reflexivity.
Qed.

Lemma step_bot_count g e :
  bot_count (step g e) = bot_count g
  \/ bot_count (step g e) = Z.max 0 (bot_count g - 1)
  \/ bot_count (step g e) = Z.min 5 (bot_count g + 1).
Proof.
  destruct e as [k now | k | ex ey now | now tdraw]; cbn [step].
  - left. apply on_keydown_bot_count.
  - left. reflexivity.
  - unfold on_click. destruct (state g); try (left; reflexivity).
    + destruct (find _ (home_buttons g)) as [[bx cb] |];
        [| left; reflexivity].
      destruct cb; cbn [call];
        unfold dec_bots, inc_bots, toggle_rm, to_home; cbv zeta;
        try (left; reflexivity);
        match goal with |- context [draw_home now ?g0] =>
          destruct (draw_home_fields now g0) as (_ & _ & _ & _ & _ & B & _)
        end; rewrite B; cbn [bot_count set_bot_count set_reduced_motion
                               set_state set_stats]; tauto.
    + unfold pause_toggle. destruct (pause_btn_box g) as [bx |];
        [| left; reflexivity].
      destruct (inside bx ex ey); [| left; reflexivity].
      destruct (state g); left; reflexivity.
  - left. unfold loop. cbv zeta. cbn [state set_last_time].
    match goal with |- context [draw tdraw ?g0] =>
      destruct (draw_fields tdraw g0) as (_ & _ & _ & _ & _ & B & _) end.
    rewrite B. destruct (state g); try reflexivity.
    destruct (update_play_fields (frame_dt now g) (set_last_time now g))
      as (_ & _ & _ & B' & _).
    rewrite B'. reflexivity.
Qed.

(** X14.  The bot count is clamped where it is changed: the "-" button
    never leaves it below 0 and the "+" button never above 5, and no
    other event touches it.  A count between 0 and 5 therefore stays
    there through any run of events, and every race started after such a
    run has at most five bots. *)
Theorem bot_count_in_range :
  (forall (t : Q) (g : Game),
      (0 <= bot_count (dec_bots t g))%Z /\ (bot_count (inc_bots t g) <= 5)%Z)
  /\ (forall (es : list Event) (g : Game),
         (0 <= bot_count g <= 5)%Z ->
         (0 <= bot_count (run g es) <= 5)%Z
         /\ forall now,
             (List.length (bots (start_race now (run g es))) <= 5)%nat).
Proof.
  split.
  - intros t g. unfold dec_bots, inc_bots.
    destruct (draw_home_fields t (set_bot_count (Z.max 0 (bot_count g - 1)) g))
      as (_ & _ & _ & _ & _ & -> & _).
    destruct (draw_home_fields t (set_bot_count (Z.min 5 (bot_count g + 1)) g))
      as (_ & _ & _ & _ & _ & -> & _).
    cbn [bot_count set_bot_count]. lia.
  - assert (A : forall es g, (0 <= bot_count g <= 5)%Z ->
                (0 <= bot_count (run g es) <= 5)%Z).
    { induction es as [| e es IH]; intros g H; simpl; [exact H |].
      apply IH. destruct (step_bot_count g e) as [-> | [-> | ->]]; lia. }
    intros es g H. split; [now apply A |].
    intro now. unfold bots, start_race, build_bots.
    cbn [bot_ai set_countdown_end set_bot_ai]. rewrite !length_map.
    rewrite range_length.
    cbn [bot_count spawn_obstacles set_obstacles set_player set_world_x
         set_time_elapsed set_results set_state].
    specialize (A es g H). lia.
Qed.

(** ** The place on the HUD *)

Lemma filter_length_perm {A} (f : A -> bool) l l' :
  Permutation l l' ->
  List.length (filter f l) = List.length (filter f l').
Proof.
  induction 1 as [| x l l' P IH | x z l | l l' l'' P1 IH1 P2 IH2]; simpl.
  - reflexivity.
  - destruct (f x); simpl; congruence.
  - destruct (f x), (f z); reflexivity.
  - congruence.
Qed.

Lemma filter_length_map {A B} (f : B -> bool) (h : A -> B) (k : A -> bool) l :
  (forall x, f (h x) = k x) ->
  List.length (filter f (map h l)) = List.length (filter k l).
Proof.
  intro E. induction l as [| x l IH]; simpl; [reflexivity |].
  rewrite E. destruct (k x); simpl; congruence.
Qed.

Lemma first_you_insert (key : string * Q -> Q) (p : string * Q) S :
  is_you p = true ->
  StronglySorted (le_key key) S ->
  Forall (fun r => is_you r = false) S ->
  forall i,
    first_you i (insert_by key p S)
    = Some (i + 1
            + List.length (filter (fun r => Qlt_bool (key r) (key p)) S))%nat.
Proof.
  intros Py Sd. induction Sd as [| r S Sd IH Hr]; intros F i; simpl.
  - rewrite Py. f_equal. lia.
  - inversion F as [| ? ? Nr F']; subst.
    qcase (Qle_bool (key p) (key r)); simpl.
    + rewrite Py.
      assert (E0 : Qlt_bool (key r) (key p) = false)
        by now apply Qlt_bool_false.
      rewrite E0.
      assert (Z : filter (fun r0 => Qlt_bool (key r0) (key p)) S = []).
      { clear IH F F' Sd. induction Hr as [| z S Hz Hr IH]; [reflexivity |].
        simpl.
        assert (Ez : Qlt_bool (key z) (key p) = false).
        { apply Qlt_bool_false. unfold le_key in Hz. lra. }
        rewrite Ez. exact IH. }
      rewrite Z. simpl. f_equal. lia.
    + rewrite Nr.
      assert (E1 : Qlt_bool (key r) (key p) = true)
        by now apply Qlt_bool_iff.
      rewrite E1, (IH F'). simpl. f_equal. lia.
Qed.

(** X15.  When the player is the only entity named "You", the place
    [draw_hud] shows is one more than the number of bots strictly ahead
    of the player: a bot level with the player does not push it down. *)
Theorem hud_place (g : Game) :
  Forall (fun ai => name (bike ai) <> "You"%string) (bot_ai g) ->
  hud_pos g
  = (1 + List.length
           (filter (fun b => Qlt_bool (xw (player g)) (xw b)) (bots g)))%nat
  /\ (1 <= hud_pos g <= 1 + List.length (bots g))%nat.
Proof.
  intro Hb.
  set (key := fun t : string * Q => - snd t).
  set (p := ("You"%string, xw (player g))).
  set (L := map (fun b => (name b, xw b)) (bots g)).
  assert (E : hud_pos g
              = (1 + List.length
                       (filter (fun b => Qlt_bool (xw (player g)) (xw b))
                               (bots g)))%nat).
  { unfold hud_pos, hud_rows. fold key p L. cbn [sort_by].
    rewrite (first_you_insert key p (sort_by key L) eq_refl).
    - cbn [get]. f_equal.
      rewrite (filter_length_perm _ _ _ (sort_by_perm key L)).
      subst L. apply filter_length_map. intro b. subst key p. cbn [snd].
      unfold Qlt_bool. f_equal.
      apply eq_true_iff_eq. rewrite !Qle_bool_iff. split; intro; lra.
    - apply (sort_by_sorted key).
    - apply (Permutation_Forall (Permutation_sym (sort_by_perm key L))).
      subst L. unfold bots. rewrite map_map.
      apply Forall_forall. intros r Hr.
      apply in_map_iff in Hr as (ai & <- & Hai).
      rewrite Forall_forall in Hb. specialize (Hb ai Hai).
      unfold is_you. cbn [fst]. now apply String.eqb_neq. }
  split; [exact E |].
  rewrite E.
  pose proof (filter_length_le
                (fun b => Qlt_bool (xw (player g)) (xw b)) (bots g)).
  lia.
Qed.

(** ** Standing, landing and hanging *)

Lemma on_ground_iff b :
  on_ground b = true <-> Qabs (y b - (ground_y_at (xw b) - 36)) < 0.2.
Proof. unfold on_ground. apply Qlt_bool_iff. Qed.

(** X16.  A new vehicle is created 40 above the ground at 0 while its
    floor is 36 above it: it hangs 4 over its floor, is not grounded, and
    a jump asked of it does nothing.  So it is for the player and every
    bot when a race starts. *)
Theorem new_vehicle_airborne :
  sin_respects_eq ->
  (forall (c : string) (i : bool) (n : string) (v : Q),
      on_ground (new_bike c i n) = false
      /\ jump v (new_bike c i n) = new_bike c i n)
  /\ (forall (now : Q) (g : Game),
         Forall (fun b => on_ground b = false)
                (everyone (start_race now g))).
Proof.
  intro P.
  assert (A : forall c i n, on_ground (new_bike c i n) = false).
  { intros c i n. unfold on_ground. apply Qlt_bool_false.
    unfold new_bike. cbn [y xw]. unfold ground_y_at.
    assert (E1 : sin ((0.0 + 200) / 260.0) == sin ((0 + 200) / 260.0))
      by (apply P; reflexivity).
    assert (E2 : sin ((0.0 + 900) / 180.0) == sin ((0 + 900) / 180.0))
      by (apply P; reflexivity).
    match goal with |- _ <= Qabs ?d => set (D := d) end.
    assert (HD : - D == 4) by (subst D; lra).
    pose proof (Qle_Qabs (- D)) as H. rewrite Qabs_opp in H. lra. }
  split.
  - intros c i n v. split; [apply A |]. unfold jump. now rewrite A.
  - intros now g. unfold everyone, bots, start_race, build_bots.
    cbn [bot_ai player set_countdown_end set_bot_ai set_player
         spawn_obstacles set_obstacles].
    constructor.
    + exact (A "#FFD166"%string false "You"%string).
    + apply Forall_forall. intros b H.
      apply in_map_iff in H as (ai & <- & H).
      apply in_map_iff in H as (k & <- & _).
      unfold mk_bot. cbn [bike]. apply A.
Qed.

(** X17.  A physics step that reaches the floor leaves the vehicle
    grounded, so that it may jump; and a vehicle that stands on its floor
    and is not moving upward is grounded again after any step of
    [dt >= 0]. *)
Theorem landing_grounds (dt : Q) (b : Bike) :
  let floor := ground_y_at (xw b) - 36 in
  (floor <= y b + (vy b + GRAVITY * dt) * dt ->
   on_ground (update_physics dt b) = true)
  /\ (0 <= dt -> floor <= y b -> 0 <= vy b ->
      on_ground (update_physics dt b) = true
      /\ vy (update_physics dt b) = 0.0).
Proof.
  cbv zeta.
  assert (A : ground_y_at (xw b) - 36 <= y b + (vy b + GRAVITY * dt) * dt ->
              on_ground (update_physics dt b) = true
              /\ vy (update_physics dt b) = 0.0).
  { intro H. apply Qle_bool_iff in H.
    unfold on_ground. rewrite update_physics_xw.
    unfold update_physics. cbn [y vy xw bump_cooldown set_vy set_y].
    rewrite H. cbn [y vy xw bump_cooldown set_vy set_y].
    destruct (Qlt_bool 0 (bump_cooldown b));
      cbn [y vy set_bump_cooldown set_vy set_y];
      (split; [| reflexivity]);
      apply Qlt_bool_iff;
      match goal with |- Qabs ?d < _ =>
        assert (Z : d == 0) by ring; rewrite Z
      end; reflexivity. }
  split.
  - intro H. now apply A.
  - intros Hdt Hy Hv. apply A. unfold GRAVITY. nra.
Qed.

(** ** Toggles *)

Lemma press_s now g :
  state (on_keydown "s" now g) = state g
  /\ player (on_keydown "s" now g)
     = match state g with
       | GRID | PLAY | PAUSE =>
           set_engine_on (negb (engine_on (player g))) (player g)
       | _ => player g
       end
  /\ (match state g with
      | HOME | END =>
          on_keydown "s" now g
          = if has_key "s" g then g else set_keys ("s"%string :: keys g) g
      | _ => True
      end).
Proof.
  unfold on_keydown.
  change (String.eqb "s" "space") with false.
  change (String.eqb (lower "s") "s") with true. cbv iota.
  destruct (has_key "s" g); destruct (state g) eqn:E;
    cbn [state player set_keys set_player]; rewrite ?E;
    cbn [state player set_keys set_player]; rewrite ?E; tauto.
Qed.

(** X18.  The toggles undo themselves: pausing twice gives back the very
    same game, toggling reduced motion twice the same preference, and
    pressing "s" twice in GRID, PLAY or PAUSE the same engine flag, each
    press flipping it.  In HOME and END a press of "s" changes nothing but
    the set of keys held. *)
Theorem toggles_round_trip :
  (forall g : Game, pause_toggle (pause_toggle g) = g)
  /\ (forall (t t' : Q) (g : Game),
         reduced_motion (toggle_rm t g) = negb (reduced_motion g)
         /\ reduced_motion (toggle_rm t' (toggle_rm t g))
            = reduced_motion g)
  /\ (forall (now now' : Q) (g : Game),
         state g = GRID \/ state g = PLAY \/ state g = PAUSE ->
         engine_on (player (on_keydown "s" now g))
         = negb (engine_on (player g))
         /\ engine_on (player (on_keydown "s" now' (on_keydown "s" now g)))
            = engine_on (player g))
  /\ (forall (now : Q) (g : Game),
         state g = HOME \/ state g = END ->
         on_keydown "s" now g
         = if has_key "s" g then g else set_keys ("s"%string :: keys g) g).
Proof.
  splits.
  - intros [s ? ? ? ? ? ? ? ? ? ? ? ? ? ?]. destruct s; reflexivity.
  - intros t t' g. unfold toggle_rm.
    destruct (draw_home_fields t
                (set_reduced_motion (negb (reduced_motion g)) g))
      as (_ & _ & _ & _ & _ & _ & R1).
    destruct (draw_home_fields t'
                (set_reduced_motion
                   (negb (reduced_motion
                            (draw_home t
                               (set_reduced_motion
                                  (negb (reduced_motion g)) g))))
                   (draw_home t
                      (set_reduced_motion (negb (reduced_motion g)) g))))
      as (_ & _ & _ & _ & _ & _ & R2).
    rewrite R2. cbn [reduced_motion set_reduced_motion].
    rewrite R1. cbn [reduced_motion set_reduced_motion].
    split; [reflexivity | apply negb_involutive].
  - intros now now' g H.
    destruct (press_s now g) as (S1 & P1 & _).
    destruct (press_s now' (on_keydown "s" now g)) as (S2 & P2 & _).
    rewrite P2, S1, P1.
    destruct H as [H | [H | H]]; rewrite H; cbn [engine_on set_engine_on];
      split; try reflexivity; apply negb_involutive.
  - intros now g H. destruct (press_s now g) as (_ & _ & P).
    destruct H as [H | H]; rewrite H in P; exact P.
Qed.

(** ** The countdown, to the millisecond *)

Lemma py_int_zero_iff q : 0 <= q -> (py_int q = 0%Z <-> q < 1).
Proof.
  destruct q as [n d]. unfold py_int, Qle, Qlt. simpl. intro H.
  assert (Hn : (0 <= n)%Z) by lia.
  rewrite Z.quot_div_nonneg by lia.
  rewrite Z.div_small_iff by lia. lia.
Qed.

Lemma overlay_cases t d g :
  state g = GRID -> countdown_end g = Some d ->
  (1 <= (d - t) * 1000 -> draw_grid_overlay t g = g)
  /\ ((d - t) * 1000 < 1 ->
      draw_grid_overlay t g
      = set_player (set_engine_on true (player g)) (set_state PLAY g)).
Proof.
  intros S C. unfold draw_grid_overlay. rewrite C, S.
  cbn [State_eqb]. rewrite andb_true_r.
  set (x := (d - t) * 1000).
  assert (P : 0 <= py_max 0 x /\ (py_max 0 x < 1 <-> x < 1)).
  { unfold py_max. qcase_lt (Qlt_bool 0 x); split; try lra; split; lra. }
  destruct P as [P0 P1].
  pose proof (py_int_zero_iff (py_max 0 x) P0) as Z.
  split; intro H.
  - assert (E : (py_int (py_max 0 x) =? 0)%Z = false).
    { apply Z.eqb_neq. intro K. apply Z in K. apply P1 in K. lra. }
    rewrite E. reflexivity.
  - assert (E : (py_int (py_max 0 x) =? 0)%Z = true).
    { apply Z.eqb_eq. apply Z, P1, H. }
    rewrite E. reflexivity.
Qed.

(** X19.  In GRID a frame leaves the state and the player alone as long
    as a whole millisecond remains on the countdown when its overlay
    reads the clock, and starts the race (state PLAY, engine on) as soon
    as less than one remains, which may be up to a millisecond before the
    deadline. *)
Theorem countdown_to_the_millisecond (now tdraw d : Q) (g : Game) :
  state g = GRID -> countdown_end g = Some d ->
  (1 <= (d - tdraw) * 1000 ->
   state (loop now tdraw g) = GRID /\ player (loop now tdraw g) = player g)
  /\ ((d - tdraw) * 1000 < 1 ->
      state (loop now tdraw g) = PLAY
      /\ engine_on (player (loop now tdraw g)) = true).
Proof.
  intros S C.
  set (g' := draw_ground (set_last_time now g)).
  assert (E : loop now tdraw g = draw_grid_overlay tdraw g').
  { subst g'. clear C. destruct g. simpl in S. subst. reflexivity. }
  rewrite E.
  assert (S' : state g' = GRID) by exact S.
  assert (C' : countdown_end g' = Some d) by exact C.
  destruct (overlay_cases tdraw d g' S' C') as [W F].
  split; intro H.
  - rewrite (W H). split; [exact S | reflexivity].
  - rewrite (F H). split; reflexivity.
Qed.
End Race.

(** * The statements at concrete inputs

    On flat ground ([sin_zero]) the model runs; the lemmas below evaluate
    it. *)

(** C1, counterexample.  In [late_game] the bot has finished, at speed
    200; one frame of 1/60 s later it stands where it stood, so the
    entities are not all advanced by speed times [dt]. *)
Lemma finished_bot_not_advanced :
  let g := late_game sin_zero in
  let g' := update_play sin_zero (1 # 60) g in
  state g = PLAY
  /\ map finished (bots g) = [true]
  /\ map speed (bots g') = [200]
  /\ map xw (bots g') = map xw (bots g)
  /\ ~ Forall2 (fun b b' => xw b' == xw b + speed b' * (1 # 60))
               (everyone g) (everyone g').
Proof.
  cbv zeta. repeat split.
  intro H. vm_compute in H.
  inversion H as [| ? ? ? ? _ Hb]; subst.
  inversion Hb as [| ? ? ? ? Hx _]; subst.
  vm_compute in Hx. discriminate.
Qed.

(** C2, witness: a fresh vehicle, one frame of 1/60 s. *)
Lemma update_physics_floor_witness :
  0 <= 1 # 60
  /\ y (update_physics sin_zero (1 # 60) (new_bike sin_zero "" false "You"))
     <= ground_y_at sin_zero 0 - 36.
Proof.
  assert (H : 0 <= 1 # 60) by (vm_compute; discriminate).
  split; [exact H |].
  exact (proj1 (update_physics_floor sin_zero (1 # 60)
                  (new_bike sin_zero "" false "You") H)).
Defined.

(** C3, counterexample.  A grounded vehicle 40 units before the centre of
    a ramp of width 84 is inside the footprint extended by the margin
    (42 + 10), and [handle_obstacles] does nothing to it. *)
Lemma ramp_outside_window_no_launch :
  let b := grounded_bike sin_zero 960 in
  on_ground sin_zero b = true
  /\ 1000 - inject_Z 84 / 2 - 10 <= xw b
  /\ xw b <= 1000 + inject_Z 84 / 2 + 10
  /\ handle_obstacles sin_zero [Ramp 1000 84 40] b = b
  /\ vy (handle_obstacles sin_zero [Ramp 1000 84 40] b) == 0.
Proof.
  cbv zeta. repeat split; vm_compute; try reflexivity; discriminate.
Qed.

(** C3, witness: the same ramp, the vehicle 20 units before its centre. *)
Lemma ramp_launch_in_window_witness :
  let b := grounded_bike sin_zero 980 in
  on_ground sin_zero b = true
  /\ obstacle_step sin_zero b (Ramp 1000 84 40) = set_vy (JUMP_VY * 0.9) b
  /\ vy (handle_obstacles sin_zero [Ramp 1000 84 40] b) < 0.
Proof.
  cbv zeta.
  assert (Hg : on_ground sin_zero (grounded_bike sin_zero 980) = true)
    by reflexivity.
  split; [exact Hg |].
  apply (ramp_launch_in_window sin_zero [] [] 1000 84 40
           (grounded_bike sin_zero 980) Hg);
    vm_compute; discriminate.
Defined.

(** C9, counterexample.  From the value 0.6 a collision leaves, twenty
    steps of 1/32 s take the timer below zero. *)
Lemma bump_cooldown_goes_negative :
  let b := set_bump_cooldown 0.6 (grounded_bike sin_zero 0) in
  0 <= bump_cooldown b
  /\ 0 <= 1 # 32
  /\ bump_cooldown (Nat.iter 20 (update_physics sin_zero (1 # 32)) b) < 0.
Proof.
  cbv zeta. repeat split; vm_compute; try reflexivity; discriminate.
Qed.

(** C9, witness: steps of 1/60 s under the bound 1/30 of [loop]. *)
Lemma bump_cooldown_bounded_below_witness :
  let b := set_bump_cooldown 0.01 (grounded_bike sin_zero 0) in
  - (1 # 30) <= bump_cooldown (update_physics sin_zero (1 # 60) b)
  /\ - (1 # 30) <= bump_cooldown (handle_obstacles sin_zero [Rock 0 30] b).
Proof.
  cbv zeta.
  destruct (bump_cooldown_bounded_below sin_zero (1 # 30) (1 # 60)
              [Rock 0 30]
              (set_bump_cooldown 0.01 (grounded_bike sin_zero 0)))
    as (H1 & H2 & _); try (vm_compute; discriminate).
  split; [exact H1 | exact H2].
Defined.

(** C4, witness: in [late_game] the bot finished at time 20; a frame and a
    key press later its record is the same. *)
Lemma finish_recorded_once_witness :
  let g := late_game sin_zero in
  let es := [Frame (1 # 60) (1 # 60); KeyPress "space" (1 # 30)] in
  same_race sin_zero g es
  /\ Forall2 finish_kept (everyone g) (everyone (run sin_zero g es))
  /\ Forall2 (finish_rule (time_elapsed g))
             (everyone g) (everyone (update_play sin_zero (1 # 60) g)).
Proof.
  cbv zeta.
  assert (H : same_race sin_zero (late_game sin_zero)
                [Frame (1 # 60) (1 # 60); KeyPress "space" (1 # 30)])
    by (lazy; repeat split).
  split; [exact H |]. split.
  - exact (proj2 (finish_recorded_once sin_zero) _ _ H).
  - exact (proj1 (finish_recorded_once sin_zero) _ _).
Defined.

(** The crossing scenario: with [dt] = 0.1 the player of [line_game]
    crosses the line in the first frame and is timed at the 30 s elapsed
    when that frame began; a frame later it is further on and its time is
    the same. *)
Lemma finish_line_scenario :
  let g := line_game sin_zero in
  let g1 := update_play sin_zero 0.1 g in
  let g2 := update_play sin_zero 0.1 g1 in
  finished (player g) = false
  /\ xw (player g) < TRACK_LENGTH
  /\ finished (player g1) = true
  /\ finish_time (player g1) = Some (time_elapsed g)
  /\ state g1 = PLAY
  /\ xw (player g1) < xw (player g2)
  /\ finish_time (player g2) = finish_time (player g1).
Proof.
  vm_compute. repeat split.
Qed.

(** C5, witness: the scenario of the three times; the player of
    [late_game] and the first bot of [photo_finish], neither with a finish
    time, listed at the elapsed time. *)
Lemma end_race_ranking_witness :
  let g' := end_race (podium_game sin_zero) in
  let late := late_game sin_zero in
  let photo := photo_finish sin_zero in
  let bot := nth 0 (bots photo) (player photo) in
  (exists t rest, results g' = ("Bot 1"%string, t) :: rest)
  /\ ~ (exists t rest, results g' = ("You"%string, t) :: rest)
  /\ wins (stats g') = wins (stats (podium_game sin_zero))
  /\ finish_time (player late) = None
  /\ In ("You"%string, time_elapsed late) (results (end_race late))
  /\ In bot (bots photo)
  /\ finish_time bot = None
  /\ In ("Bot 1"%string, time_elapsed photo) (results (end_race photo)).
Proof.
  cbv zeta.
  assert (N : ~ exists t rest,
                results (end_race (podium_game sin_zero))
                = ("You"%string, t) :: rest).
  { intros (t & rest & H). vm_compute in H. discriminate. }
  split; [eexists; eexists; vm_compute; reflexivity |].
  split; [exact N |].
  split.
  { destruct (proj1 (end_race_ranking sin_zero) (podium_game sin_zero))
      as (_ & _ & _ & _ & _ & _ & _ & _ & _ & W).
    apply (proj2 W). exact N. }
  assert (L : finish_time (player (late_game sin_zero)) = None)
    by reflexivity.
  split; [exact L |].
  split.
  { destruct (proj1 (end_race_ranking sin_zero) (late_game sin_zero))
      as (_ & _ & _ & _ & F & _).
    exact (proj2 (F (player (late_game sin_zero)) (or_introl eq_refl)) L). }
  assert (B : In (nth 0 (bots (photo_finish sin_zero))
                      (player (photo_finish sin_zero)))
                 (bots (photo_finish sin_zero)))
    by (left; reflexivity).
  assert (U : finish_time (nth 0 (bots (photo_finish sin_zero))
                               (player (photo_finish sin_zero))) = None)
    by reflexivity.
  split; [exact B |].
  split; [exact U |].
  destruct (proj1 (end_race_ranking sin_zero) (photo_finish sin_zero))
    as (_ & _ & _ & _ & F & _).
  exact (proj2 (F _ (or_intror B)) U).
Defined.

(** C6, witness: two seeds that agree on their low 31 bits. *)
Lemma spawn_obstacles_deterministic_witness :
  seeded_rand 1337 = seeded_rand (1337 + 2 ^ 31)
  /\ gen_obstacles 1337 = gen_obstacles (1337 + 2 ^ 31).
Proof.
  assert (H : seeded_rand 1337 = seeded_rand (1337 + 2 ^ 31)) by reflexivity.
  split; [exact H |].
  destruct (spawn_obstacles_deterministic sin_zero) as (_ & _ & _ & D & _).
  exact (D _ _ H).
Defined.

(** C8, witness: a race started at time 0, frames at 1, 4 and 5 seconds. *)
Lemma countdown_starts_play_once_witness :
  let g := start_race sin_zero 0 (fresh_game sin_zero) in
  let es := [Frame 1 1; Frame 4 4; Frame 5 5] in
  state g = GRID
  /\ countdown_end g = Some (0 + COUNTDOWN_MS / 1000.0)
  /\ grid_to_play sin_zero g es = 1%nat
  /\ state (loop sin_zero 4 4 g) = PLAY
  /\ engine_on (player (loop sin_zero 4 4 g)) = true.
Proof.
  cbv zeta.
  set (g := start_race sin_zero 0 (fresh_game sin_zero)).
  assert (S : state g = GRID) by reflexivity.
  assert (C : countdown_end g = Some (0 + COUNTDOWN_MS / 1000.0))
    by reflexivity.
  assert (D : 0 + COUNTDOWN_MS / 1000.0 <= 4) by (vm_compute; discriminate).
  destruct (countdown_starts_play_once sin_zero) as (P1 & _ & P3).
  split; [exact S |]. split; [exact C |]. split.
  - apply (P3 [Frame 1 1; Frame 4 4; Frame 5 5] g _ S C).
    + repeat constructor.
    + apply Exists_cons_tl, Exists_cons_hd. exact D.
  - exact (P1 g 4 4 _ S C D).
Defined.

(** C10, witness: a started race is a race; and in [photo_finish] all
    three entities cross the line in one frame. *)
Lemma end_race_all_finished_witness :
  let g := photo_finish sin_zero in
  let g' := update_play_checked sin_zero (1 # 30) g in
  Forall timed (everyone (start_race sin_zero 0 (fresh_game sin_zero)))
  /\ map finished (everyone g) = [false; false; false]
  /\ forallb (done) (everyone g') = true
  /\ Forall (fun b => finished b = true /\ exists t, finish_time b = Some t)
            (everyone g').
Proof.
  cbv zeta.
  destruct (end_race_all_finished sin_zero) as (P1 & P2).
  split; [apply P1; constructor |].
  split; [reflexivity |].
  assert (D : forallb done
                (everyone (update_play_checked sin_zero (1 # 30)
                                               (photo_finish sin_zero)))
              = true) by (vm_compute; reflexivity).
  split; [exact D |].
  apply (P2 (photo_finish sin_zero) (1 # 30)); [| exact D].
  repeat constructor; unfold timed; simpl; discriminate.
Defined.

(** C7, witness.  In [bump_game] the player stands at a rock: the frame at
    1/30 s applies a penalty, the seventeen frames that follow at steps of
    1/30 s apply none, and the frame at 19/30 s, 0.6 s of simulated time
    after the first, applies the next. *)
Lemma no_repeat_penalty_witness :
  let g0 := bump_game sin_zero in
  let e0 := Frame (1 # 30) (1 # 30) in
  let es := frames_at 0 (seq 2 17) in
  let e := Frame (19 # 30) (19 # 30) in
  (0 < hits sin_zero g0 e0)%nat
  /\ (0 < hits sin_zero (run sin_zero (step sin_zero g0 e0) es) e)%nat
  /\ bump_cooldown (player (step sin_zero g0 e0)) = 0.6
  /\ 0.6 <= sim_time sin_zero (step sin_zero g0 e0) (es ++ [e]).
Proof.
  cbv zeta.
  assert (H0 : (0 < hits sin_zero (bump_game sin_zero)
                          (Frame (1 # 30) (1 # 30)))%nat)
    by (lazy; apply le_n).
  assert (H1 : (0 < hits sin_zero
                   (run sin_zero
                        (step sin_zero (bump_game sin_zero)
                              (Frame (1 # 30) (1 # 30)))
                        (frames_at 0 (seq 2 17)))
                   (Frame (19 # 30) (19 # 30)))%nat)
    by (lazy; apply le_n).
  assert (SR : same_race sin_zero
                 (step sin_zero (bump_game sin_zero) (Frame (1 # 30) (1 # 30)))
                 (frames_at 0 (seq 2 17)))
    by (lazy; repeat split).
  assert (CM : clock_monotone sin_zero
                 (step sin_zero (bump_game sin_zero) (Frame (1 # 30) (1 # 30)))
                 (frames_at 0 (seq 2 17) ++ [Frame (19 # 30) (19 # 30)]))
    by (lazy; repeat split; intro K; discriminate K).
  split; [exact H0 |]. split; [exact H1 |].
  destruct (no_repeat_penalty sin_zero _ _ _ _ H0 SR CM H1) as (C & T & _).
  split; [exact C | exact T].
Defined.

(** * The further properties at concrete inputs *)

Lemma sin_zero_lipschitz : sin_lipschitz sin_zero.
Proof. intros a b H. unfold sin_zero. split; lra. Defined.

Lemma sin_zero_respects_eq : sin_respects_eq sin_zero.
Proof. intros a b H. reflexivity. Defined.

(** X1, witness: the player of [line_game], one frame of 1/60 s. *)
Lemma player_speed_in_range_witness :
  0 <= 1 # 60
  /\ xw (player (line_game sin_zero))
     <= xw (player (update_play sin_zero (1 # 60) (line_game sin_zero)))
  /\ speed (player (update_play sin_zero (1 # 60) (line_game sin_zero)))
     <= MAX_SPEED.
Proof.
  assert (H : 0 <= 1 # 60) by (vm_compute; discriminate).
  destruct (player_speed_in_range sin_zero (1 # 60) (line_game sin_zero) H)
    as (X & _ & M).
  split; [exact H |]. split; [exact X |].
  apply M; vm_compute; discriminate.
Defined.

(** X2, witness: the bots of a race just started. *)
Lemma bots_keep_cruising_witness :
  let g := start_race sin_zero 0 (fresh_game sin_zero) in
  Forall cruising (bot_ai g)
  /\ Forall cruising (bot_ai (update_play sin_zero (1 # 60) g)).
Proof.
  cbv zeta.
  destruct (bots_keep_cruising sin_zero) as [A B].
  assert (C : Forall cruising
                (bot_ai (start_race sin_zero 0 (fresh_game sin_zero)))).
  { exact (B _). }
  assert (H : 0 <= 1 # 60) by (vm_compute; discriminate).
  split; [exact C |].
  exact (proj1 (A (1 # 60) _ H C)).
Defined.

(** X3, witness: from PLAY, a pause and a frame. *)
Lemma state_transitions_witness :
  let g := late_game sin_zero in
  state g <> HOME
  /\ state (run sin_zero g [KeyPress "p" 0; Frame 1 1]) <> HOME
  /\ allowed (state g) (state (step sin_zero g (KeyPress "p" 0))) = true.
Proof.
  cbv zeta.
  assert (H : state (late_game sin_zero) <> HOME) by discriminate.
  destruct (state_transitions sin_zero) as (A & B & _).
  split; [exact H |]. split; [exact (B _ _ H) | exact (A _ _)].
Defined.

(** X4, witness: a frame of the race of [late_game]. *)
Lemma race_clock_witness :
  let g := late_game sin_zero in
  let e := Frame (1 # 60) (1 # 60) in
  enters_grid sin_zero g e = false
  /\ time_elapsed (step sin_zero g e) == time_elapsed g + sim_dt g e
  /\ 0 <= sim_dt g e /\ sim_dt g e <= 1 # 30.
Proof.
  cbv zeta.
  assert (H : enters_grid sin_zero (late_game sin_zero)
                (Frame (1 # 60) (1 # 60)) = false) by (lazy; reflexivity).
  assert (C : clock_monotone sin_zero (late_game sin_zero)
                [Frame (1 # 60) (1 # 60)]).
  { split; [vm_compute; discriminate | exact I]. }
  destruct (race_clock sin_zero) as (A & _ & B).
  split; [exact H |]. split; [exact (A _ _ H) | exact (B _ _ C)].
Defined.

(** X5, witness: a frame on the home screen. *)
Lemma frame_outside_race_witness :
  state (fresh_game sin_zero) = HOME
  /\ player (loop sin_zero 1 1 (fresh_game sin_zero))
     = player (fresh_game sin_zero)
  /\ time_elapsed (loop sin_zero 1 1 (fresh_game sin_zero))
     = time_elapsed (fresh_game sin_zero).
Proof.
  assert (H1 : state (fresh_game sin_zero) <> PLAY) by discriminate.
  assert (H2 : state (fresh_game sin_zero) <> GRID) by discriminate.
  destruct (frame_outside_race sin_zero 1 1 (fresh_game sin_zero) H1 H2)
    as (_ & P & _ & T & _).
  split; [reflexivity |]. split; [exact P | exact T].
Defined.

(** X7, witness: the ranking scenario, the player timed at 12. *)
Lemma end_race_best_time_witness :
  name (player (podium_game sin_zero)) = "You"%string
  /\ best_time (stats (end_race (podium_game sin_zero)))
     = Some (get (finish_time (player (podium_game sin_zero)))
                 (time_elapsed (podium_game sin_zero))).
Proof.
  assert (H : name (player (podium_game sin_zero)) = "You"%string)
    by reflexivity.
  assert (B : Forall (fun ai => name (bike ai) <> "You"%string)
                     (bot_ai (podium_game sin_zero))).
  { repeat constructor; discriminate. }
  split; [exact H |].
  exact (proj1 (end_race_best_time (podium_game sin_zero) H B)).
Defined.

(** X10, witness: flat ground, a race just started. *)
Lemma no_penalty_on_gentle_ground_witness :
  sin_lipschitz sin_zero
  /\ hits sin_zero (start_race sin_zero 0 (fresh_game sin_zero))
          (Frame 1 1) = 0%nat.
Proof.
  split; [exact sin_zero_lipschitz |].
  destruct (no_penalty_on_gentle_ground sin_zero sin_zero_lipschitz)
    as (_ & A & _).
  apply A. constructor.
Defined.

(** X11, witness: throttle and brake. *)
Lemma keys_track_held_witness :
  "Left"%string <> "Right"%string
  /\ has_key "Right" (on_keydown sin_zero "Right" 0 (fresh_game sin_zero))
     = true
  /\ has_key "Left" (on_keydown sin_zero "Right" 0 (fresh_game sin_zero))
     = has_key "Left" (fresh_game sin_zero).
Proof.
  assert (N : "Left"%string <> "Right"%string) by discriminate.
  destruct (keys_track_held sin_zero "Right" "Left" 0 (fresh_game sin_zero))
    as (A & _ & B).
  split; [exact N |]. split; [exact A | exact (proj1 (B N))].
Defined.

(** X12, witness: the jump key added to the keys of [line_game]. *)
Lemma play_reads_throttle_keys_witness :
  let g := line_game sin_zero in
  let ks := ("space" :: keys g)%string in
  existsb (String.eqb "Right") ks = has_key "Right" g
  /\ update_play sin_zero (1 # 60) (set_keys ks g)
     = set_keys ks (update_play sin_zero (1 # 60) g).
Proof.
  cbv zeta.
  assert (R : existsb (String.eqb "Right")
                ("space" :: keys (line_game sin_zero))%string
              = has_key "Right" (line_game sin_zero)) by reflexivity.
  assert (L : existsb (String.eqb "Left")
                ("space" :: keys (line_game sin_zero))%string
              = has_key "Left" (line_game sin_zero)) by reflexivity.
  split; [exact R |].
  exact (proj1 (play_reads_throttle_keys sin_zero (1 # 60) _ _ R L)).
Defined.

(** X13, witness: a rock behind, then a ramp 100 ahead of a grounded bot
    that looks 140 ahead. *)
Lemma look_ahead_first_in_sight_witness :
  let b := grounded_bike sin_zero 500 in
  on_ground sin_zero b = true
  /\ look_ahead sin_zero 140 [Rock 400 12; Ramp 600 84 40; Rock 610 12] b
     = set_vy (JUMP_VY * 0.95) b.
Proof.
  cbv zeta.
  assert (G : on_ground sin_zero (grounded_bike sin_zero 500) = true)
    by reflexivity.
  split; [exact G |].
  destruct (look_ahead_first_in_sight sin_zero 140 (grounded_bike sin_zero 500))
    as (_ & _ & A).
  apply (A [Rock 400 12] (Ramp 600 84 40) [Rock 610 12]);
    [ constructor; [left; vm_compute; discriminate | constructor]
    | reflexivity | reflexivity | exact G ].
Defined.

(** X14, witness: three bots, the "+" button pressed on the home screen. *)
Lemma bot_count_in_range_witness :
  (0 <= bot_count (fresh_game sin_zero) <= 5)%Z
  /\ (0 <= bot_count (run sin_zero (fresh_game sin_zero)
                          [KeyPress "Return" 0; Frame 1 1]) <= 5)%Z.
Proof.
  assert (H : (0 <= bot_count (fresh_game sin_zero) <= 5)%Z)
    by (vm_compute; split; discriminate).
  split; [exact H |].
  exact (proj1 (proj2 (bot_count_in_range sin_zero) _ _ H)).
Defined.

(** X15, witness: in [late_game] the one bot is past the line and the
    player at the start: the player is second. *)
Lemma hud_place_witness :
  Forall (fun ai => name (bike ai) <> "You"%string)
         (bot_ai (late_game sin_zero))
  /\ hud_pos (late_game sin_zero) = 2%nat.
Proof.
  assert (B : Forall (fun ai => name (bike ai) <> "You"%string)
                     (bot_ai (late_game sin_zero))).
  { repeat constructor; discriminate. }
  split; [exact B |].
  rewrite (proj1 (hud_place sin_zero (late_game sin_zero) B)). reflexivity.
Defined.

(** X16, witness: on flat ground. *)
Lemma new_vehicle_airborne_witness :
  sin_respects_eq sin_zero
  /\ on_ground sin_zero (new_bike sin_zero "#FFD166" false "You") = false.
Proof.
  split; [exact sin_zero_respects_eq |].
  exact (proj1 (proj1 (new_vehicle_airborne sin_zero sin_zero_respects_eq)
                      "#FFD166"%string false "You"%string 0)).
Defined.

(** X17, witness: a vehicle standing still on flat ground. *)
Lemma landing_grounds_witness :
  let b := grounded_bike sin_zero 0 in
  0 <= 1 # 60
  /\ ground_y_at sin_zero (xw b) - 36 <= y b
  /\ 0 <= vy b
  /\ on_ground sin_zero (update_physics sin_zero (1 # 60) b) = true.
Proof.
  cbv zeta.
  assert (H1 : 0 <= 1 # 60) by (vm_compute; discriminate).
  assert (H2 : ground_y_at sin_zero (xw (grounded_bike sin_zero 0)) - 36
               <= y (grounded_bike sin_zero 0))
    by (vm_compute; discriminate).
  assert (H3 : 0 <= vy (grounded_bike sin_zero 0))
    by (vm_compute; discriminate).
  split; [exact H1 |]. split; [exact H2 |]. split; [exact H3 |].
  exact (proj1 (proj2 (landing_grounds sin_zero (1 # 60)
                         (grounded_bike sin_zero 0)) H1 H2 H3)).
Defined.

(** X18, witness: the engine key on the grid. *)
Lemma toggles_round_trip_witness :
  let g := start_race sin_zero 0 (fresh_game sin_zero) in
  state g = GRID
  /\ engine_on (player (on_keydown sin_zero "s" 1 g)) = true
  /\ engine_on (player (on_keydown sin_zero "s" 2
                                   (on_keydown sin_zero "s" 1 g))) = false.
Proof.
  cbv zeta.
  assert (S : state (start_race sin_zero 0 (fresh_game sin_zero)) = GRID)
    by reflexivity.
  destruct (toggles_round_trip sin_zero) as (_ & _ & A & _).
  destruct (A 1 2 _ (or_introl S)) as [E1 E2].
  split; [exact S |]. split; [exact E1 | exact E2].
Defined.

(** X19, witness: a race started at time 0; a frame at 1 s waits, a frame
    half a millisecond before the deadline starts the race. *)
Lemma countdown_to_the_millisecond_witness :
  let g := start_race sin_zero 0 (fresh_game sin_zero) in
  state (loop sin_zero 1 1 g) = GRID
  /\ (0 + COUNTDOWN_MS / 1000.0 - 2.9995) * 1000 < 1
  /\ state (loop sin_zero 2.9995 2.9995 g) = PLAY.
Proof.
  cbv zeta.
  set (g := start_race sin_zero 0 (fresh_game sin_zero)).
  assert (S : state g = GRID) by reflexivity.
  assert (C : countdown_end g = Some (0 + COUNTDOWN_MS / 1000.0))
    by reflexivity.
  assert (W : 1 <= (0 + COUNTDOWN_MS / 1000.0 - 1) * 1000)
    by (vm_compute; discriminate).
  assert (F : (0 + COUNTDOWN_MS / 1000.0 - 2.9995) * 1000 < 1)
    by reflexivity.
  split; [| split; [exact F |]].
  - exact (proj1 (proj1 (countdown_to_the_millisecond
                           sin_zero 1 1 _ g S C) W)).
  - exact (proj1 (proj2 (countdown_to_the_millisecond
                           sin_zero 2.9995 2.9995 _ g S C) F)).
Defined.
